(** * A shallow embedding of leakguard/leak_logic.hpp

    The C++ header defines the leak-detection criteria of the Leak Guard
    controller, the [LeakLogic] engine that aggregates them, and the
    text codec that persists the configured criteria.

    Conventions of the embedding:
    - [time_t] and [int] values are [Z]; the explicit [static_cast<int>] of
      the source is written out as a 32-bit wrap-around ([int_cast]).
      Overflow of [accumulatedTime += elapsedTime] (undefined behaviour on a
      64-bit [time_t]) is not modelled.
    - [float] values are the rationals they denote ([Q]); comparisons of
      floats are exact, and the arithmetic of the codec rounds to IEEE 754
      binary32, round to nearest, ties to even ([round32]).  NaN and the
      infinities are not modelled.
    - [uint8_t] values are [Z] in [0, 256).
    - A [std::unique_ptr<LeakDetectionCriterion>] is an
      [option LeakDetectionCriterion]; [None] is the null pointer.  Calling
      a method through a null pointer is reported as [NullDeref]. *)

From Stdlib Require Import ZArith NArith QArith Qabs Qround Qpower Lqa Lia.
From Stdlib Require Import List String Ascii Bool.
From Stdlib Require Import DecimalString DecimalZ.
From Stdlib Require DecimalPos DecimalFacts.
Import ListNotations.
Open Scope Z_scope.

(** ** Actions *)

Inductive ActionType := NO_ACTION | CLOSE_VALVE.

Inductive ActionReason := NONE | EXCEEDED_FLOW_RATE | LEAK_DETECTED_BY_PROBE.

(** [LeakPreventionAction(actionType, reason, probeId)]; the default probe id
    is [(uint8_t)-1 = 255]. *)
Record LeakPreventionAction := mkLeakPreventionAction {
  getActionType : ActionType;
  getActionReason : ActionReason;
  getProbeId : Z
}.

Definition default_probeId : Z := 255.

(** ** Sensor state *)

Record SensorState := mkSensorState {
  flowRate : Q;
  probeStates : list bool
}.

(** ** Results of calls that may go through a null [unique_ptr] *)

Inductive outcome (A : Type) := Ok (a : A) | NullDeref.
Arguments Ok {A} a.
Arguments NullDeref {A}.

(** ** [float] arithmetic: IEEE 754 binary32, round to nearest, ties to even *)

Definition pow2 (e : Z) : Q := Qpower (2#1) e.

(** The exponent of the last place of a positive [x]: the [e] with
    [2^23 <= x / 2^e < 2^24], clamped below at the subnormal exponent -149.
    [Z.log2] of numerator and denominator gives [e] up to one. *)
Definition fexp (x : Q) : Z :=
  let e0 := Z.log2 (Qnum x) - Z.log2 (Zpos (Qden x)) - 23 in
  let e1 := if Qle_bool (inject_Z (2^23)) (x / pow2 e0) then e0 else e0 - 1 in
  Z.max e1 (-149).

(** Nearest integer, ties to even. *)
Definition round_ne (y : Q) : Z :=
  let q := Qfloor y in
  match Qcompare (y - inject_Z q) (1#2) with
  | Lt => q
  | Gt => q + 1
  | Eq => if Z.even q then q else q + 1
  end.

Definition round_pos (x : Q) : Q :=
  let e := fexp x in inject_Z (round_ne (x / pow2 e)) * pow2 e.

(** The binary32 value nearest to [x] (no overflow to infinity). *)
Definition round32 (x : Q) : Q :=
  match Qcompare x 0 with
  | Eq => 0
  | Gt => round_pos x
  | Lt => - round_pos (- x)
  end.

(** [static_cast<float>(k)] for an [int] [k]. *)
Definition float_of_int (k : Z) : Q := round32 (inject_Z k).

(** [a * b] and [a / b] on floats. *)
Definition fmul (a b : Q) : Q := round32 (a * b).
Definition fdiv (a b : Q) : Q := round32 (a / b).

(** [static_cast<int>(x)] for a float [x]: truncation toward zero (a value
    out of the range of [int] is undefined behaviour, not modelled). *)
Definition int_of_float (x : Q) : Z := Z.quot (Qnum x) (Zpos (Qden x)).

(** [static_cast<int>(z)] for a [time_t] [z]: reduction modulo 2^32 into
    [-2^31, 2^31). *)
Definition int_cast (z : Z) : Z := (z + 2^31) mod 2^32 - 2^31.

(** Conversion of an [int] to [uint8_t]. *)
Definition to_uint8 (z : Z) : Z := z mod 256.

(** ** [StaticString<N>]

    staticstring.hpp is not among the sources.  Strings are modelled as
    [string] without their capacities [N]; the spec (section 5) only says
    that exceeding one is a reported failure, not what the string then
    holds.  The properties of serialized text are therefore stated for
    texts within the capacities ([fits8] below). *)

(** [operator+=(char)]. *)
Definition push (s : string) (c : ascii) : string := (s ++ String c EmptyString)%string.

(** [Truncate(len)]: keep the first [len] characters. *)
Definition Truncate (s : string) (len : nat) : string := substring 0 len s.

(** Modelled from the spec: [StaticString<N>::Of] (staticstring.hpp) renders
    an integer in base 10, with a leading '-' for negative values
    (spec section 6: field integers are base-10, no leading '+'). *)
Definition Of (n : Z) : string := NilEmpty.string_of_int (Z.to_int n).

(** The text [Of n] fits in a [StaticString<8>], the capacity of the
    numeric fields written by [serialize]: at most 8 characters (a
    [StaticString<N>] holds [N] characters, as [StaticString<1>(",")] in
    the source shows).  By [Of_length] this holds for [n] in
    [[-9999999, 99999999]]. *)
Definition fits8 (n : Z) : bool := Nat.leb (String.length (Of n)) 8.

(** Little-endian decimal digits whose most significant digit is not 0. *)
Definition is_nil (d : Decimal.uint) : bool :=
  match d with Decimal.Nil => true | _ => false end.

Fixpoint top_nz (d : Decimal.uint) : bool :=
  match d with
  | Decimal.Nil => false
  | Decimal.D0 d' => top_nz d'
  | Decimal.D1 d' | Decimal.D2 d' | Decimal.D3 d' | Decimal.D4 d' | Decimal.D5 d'
  | Decimal.D6 d' | Decimal.D7 d' | Decimal.D8 d' | Decimal.D9 d' =>
      is_nil d' || top_nz d'
  end.

(** Modelled from the spec: [StaticString::ToInteger] (staticstring.hpp)
    reads a base-10 integer with an optional leading '-' (spec section 6);
    text that is not such an integer, which the spec leaves open, reads
    as 0. *)
Definition ToInteger (s : string) : Z :=
  match NilEmpty.int_of_string s with
  | Some i => Z.of_int i
  | None => 0
  end.

(** Modelled from the spec: [buffer[0]] (staticstring.hpp) is the type tag
    of a chunk; an empty chunk has no tag and is skipped (spec section 4.4:
    only non-empty chunks are dispatched). *)
Definition first_char (s : string) : option ascii := String.get 0 s.

(** ** [TimeBasedFlowRateCriterion] *)

Module TimeBasedFlowRateCriterion.

Record t := mk {
  rateThreshold : Q;
  minDuration : Z;
  accumulatedTime : Z;
  active : bool
}.

(** The constructor [TimeBasedFlowRateCriterion(rateThreshold, minDuration)]. *)
Definition new (rateThreshold : Q) (minDuration : Z) : t :=
  mk rateThreshold minDuration 0 false.

Definition update (self : t) (sensorState : SensorState) (elapsedTime : Z) : t :=
  if Qle_bool self.(rateThreshold) sensorState.(flowRate) then
    mk self.(rateThreshold) self.(minDuration)
       (self.(accumulatedTime) + elapsedTime) true
  else
    mk self.(rateThreshold) self.(minDuration) 0 false.

Definition getAction (self : t) : option LeakPreventionAction :=
  if self.(active) && (self.(minDuration) <=? self.(accumulatedTime)) then
    Some (mkLeakPreventionAction CLOSE_VALVE EXCEEDED_FLOW_RATE default_probeId)
  else None.

(** Each numeric field is written through [StaticString<8>::Of], modelled
    by [Of]: the text is exact when it fits ([fits8]). *)
Definition serialize (self : t) : string :=
  ("T," ++ Of (int_of_float (fmul self.(rateThreshold) 100)) ++ ","
   ++ Of (int_cast self.(minDuration)) ++ ",")%string.

Inductive BufferState := TYPE | RATE_THRESH | MIN_DURATION.

(** The character loop of [deserialize]. *)
Fixpoint deserialize_loop (serialized buffer : string) (state : BufferState)
  (rateThreshold : Q) : option t :=
  match serialized with
  | EmptyString => None
  | String c rest =>
      let buffer := push buffer c in
      if Ascii.eqb c "," then
        let buffer := Truncate buffer (String.length buffer - 1) in
        match state with
        | TYPE => deserialize_loop rest EmptyString RATE_THRESH rateThreshold
        | RATE_THRESH =>
            deserialize_loop rest EmptyString MIN_DURATION
              (fdiv (float_of_int (ToInteger buffer)) 100)
        | MIN_DURATION => Some (new rateThreshold (ToInteger buffer))
        end
      else deserialize_loop rest buffer state rateThreshold
  end.

(** [nullptr] is [None]. *)
Definition deserialize (serialized : string) : option t :=
  deserialize_loop serialized EmptyString TYPE 0.

End TimeBasedFlowRateCriterion.

(** ** [ProbeLeakDetectionCriterion] *)

Module ProbeLeakDetectionCriterion.

Record t := mk {
  probeId : Z;
  leakDetected : bool
}.

Definition new (probeId : Z) : t := mk probeId false.

(** [leakDetected = false; for (state : probeStates) if (state) leakDetected = true;] *)
Definition update (self : t) (sensorState : SensorState) (elapsedTime : Z) : t :=
  mk self.(probeId)
     (fold_left (fun leakDetected (state : bool) => if state then true else leakDetected)
        sensorState.(probeStates) false).

Definition getAction (self : t) : option LeakPreventionAction :=
  if self.(leakDetected) then
    Some (mkLeakPreventionAction CLOSE_VALVE LEAK_DETECTED_BY_PROBE self.(probeId))
  else None.

Definition serialize (self : t) : string :=
  ("P," ++ Of self.(probeId) ++ ",")%string.

Inductive BufferState := TYPE | PROBE_ID.

(** The character loop of [deserialize]. *)
Fixpoint deserialize_loop (serialized buffer : string) (state : BufferState) : option t :=
  match serialized with
  | EmptyString => None
  | String c rest =>
      let buffer := push buffer c in
      if Ascii.eqb c "," then
        let buffer := Truncate buffer (String.length buffer - 1) in
        match state with
        | TYPE => deserialize_loop rest EmptyString PROBE_ID
        | PROBE_ID => Some (new (to_uint8 (ToInteger buffer)))
        end
      else deserialize_loop rest buffer state
  end.

Definition deserialize (serialized : string) : option t :=
  deserialize_loop serialized EmptyString TYPE.

End ProbeLeakDetectionCriterion.

(** ** The polymorphic criterion: virtual dispatch over the two classes *)

Inductive LeakDetectionCriterion :=
| TimeBased (c : TimeBasedFlowRateCriterion.t)
| Probe (c : ProbeLeakDetectionCriterion.t).

Definition criterion_update (c : LeakDetectionCriterion) (s : SensorState) (dt : Z)
  : LeakDetectionCriterion :=
  match c with
  | TimeBased c => TimeBased (TimeBasedFlowRateCriterion.update c s dt)
  | Probe c => Probe (ProbeLeakDetectionCriterion.update c s dt)
  end.

Definition criterion_getAction (c : LeakDetectionCriterion) : option LeakPreventionAction :=
  match c with
  | TimeBased c => TimeBasedFlowRateCriterion.getAction c
  | Probe c => ProbeLeakDetectionCriterion.getAction c
  end.

Definition criterion_serialize (c : LeakDetectionCriterion) : string :=
  match c with
  | TimeBased c => TimeBasedFlowRateCriterion.serialize c
  | Probe c => ProbeLeakDetectionCriterion.serialize c
  end.

(** ** [StaticVector<T, N>]

    Modelled from the spec: [StaticVector::Append] (staticvector.hpp, not
    among the sources) fails, returning false and leaving the vector as it
    is, when size equals capacity; otherwise it appends at the end and
    returns true (spec section 4.1). *)
Definition Append {A : Type} (capacity : nat) (v : list A) (item : A) : bool * list A :=
  if Nat.eqb (List.length v) capacity then (false, v) else (true, v ++ [item]).

(** Modelled from the spec: [StaticVector::RemoveIndex(i)] fails, returning
    false and leaving the vector as it is, when [i] is out of bounds;
    otherwise it removes element [i], keeping the order of the others, and
    returns true (spec section 4.1). *)
Definition RemoveIndex {A : Type} (v : list A) (index : nat) : bool * list A :=
  if Nat.ltb index (List.length v) then (true, firstn index v ++ skipn (S index) v) else (false, v).

(** Modelled from the spec: [StaticVector::Clear()] empties the vector
    (spec section 4.1). *)
Definition Clear {A : Type} (v : list A) : list A := [].

(** ** [LeakLogic] *)

Definition LEAK_LOGIC_MAX_CRITERIA : nat := 10.

Module LeakLogic.

Record t := mk { criteria : list (option LeakDetectionCriterion) }.

Definition empty : t := mk [].

Fixpoint update_criteria (cs : list (option LeakDetectionCriterion)) (s : SensorState) (dt : Z)
  : outcome (list (option LeakDetectionCriterion)) :=
  match cs with
  | [] => Ok []
  | None :: _ => NullDeref
  | Some c :: cs' =>
      match update_criteria cs' s dt with
      | Ok cs'' => Ok (Some (criterion_update c s dt) :: cs'')
      | NullDeref => NullDeref
      end
  end.

Definition update (self : t) (sensorState : SensorState) (elapsedTime : Z) : outcome t :=
  match update_criteria self.(criteria) sensorState elapsedTime with
  | Ok cs => Ok (mk cs)
  | NullDeref => NullDeref
  end.

Fixpoint getAction_loop (cs : list (option LeakDetectionCriterion)) : outcome LeakPreventionAction :=
  match cs with
  | [] => Ok (mkLeakPreventionAction NO_ACTION NONE default_probeId)
  | None :: _ => NullDeref
  | Some c :: cs' =>
      match criterion_getAction c with
      | Some action => Ok action
      | None => getAction_loop cs'
      end
  end.

Definition getAction (self : t) : outcome LeakPreventionAction := getAction_loop self.(criteria).

Definition addCriterion (self : t) (criterion : option LeakDetectionCriterion) : bool * t :=
  let (ok, cs) := Append LEAK_LOGIC_MAX_CRITERIA self.(criteria) criterion in (ok, mk cs).

Fixpoint serialize_loop (cs : list (option LeakDetectionCriterion)) (serialized : string)
  : outcome string :=
  match cs with
  | [] => Ok serialized
  | None :: _ => NullDeref
  | Some c :: cs' => serialize_loop cs' (serialized ++ criterion_serialize c ++ "|")%string
  end.

Definition serialize (self : t) : outcome string := serialize_loop self.(criteria) EmptyString.

(** The [switch (buffer[0])] of [loadFromString]. *)
Definition load_chunk (self : t) (buffer : string) : t :=
  match first_char buffer with
  | Some "T"%char =>
      snd (addCriterion self (option_map TimeBased (TimeBasedFlowRateCriterion.deserialize buffer)))
  | Some "P"%char =>
      snd (addCriterion self (option_map Probe (ProbeLeakDetectionCriterion.deserialize buffer)))
  | _ => self
  end.

(** The character loop of [loadFromString]. *)
Fixpoint loadFromString_loop (serialized buffer : string) (self : t) : t :=
  match serialized with
  | EmptyString => self
  | String c rest =>
      let buffer := push buffer c in
      if Ascii.eqb c "|" then
        let buffer := Truncate buffer (String.length buffer - 1) in
        loadFromString_loop rest EmptyString (load_chunk self buffer)
      else loadFromString_loop rest buffer self
  end.

Definition loadFromString (self : t) (serialized : string) : t :=
  loadFromString_loop serialized EmptyString self.

(** [removeCriterion(const uint8_t index)]: [index] is the [uint8_t] value. *)
Definition removeCriterion (self : t) (index : Z) : bool * t :=
  let (ok, cs) := RemoveIndex self.(criteria) (Z.to_nat index) in (ok, mk cs).

Definition clearCriteria (self : t) : t := mk (Clear self.(criteria)).

End LeakLogic.

(** ** Drivers used to state properties of sequences of calls *)

(** A sequence of [update(sensorState, elapsedTime)] calls on one criterion. *)
Definition run_TimeBased (c : TimeBasedFlowRateCriterion.t) (ticks : list (SensorState * Z))
  : TimeBasedFlowRateCriterion.t :=
  fold_left (fun c tick => TimeBasedFlowRateCriterion.update c (fst tick) (snd tick)) ticks c.

(** Total elapsed time of a sequence of ticks. *)
Definition total_elapsed (ticks : list (SensorState * Z)) : Z :=
  fold_right (fun tick acc => snd tick + acc) 0 ticks.

Definition close_for_flow : LeakPreventionAction :=
  mkLeakPreventionAction CLOSE_VALVE EXCEEDED_FLOW_RATE default_probeId.

Definition no_action : LeakPreventionAction :=
  mkLeakPreventionAction NO_ACTION NONE default_probeId.

(** The entries that [loadFromString] hands to [addCriterion] for one chunk. *)
Definition chunk_entries (buffer : string) : list (option LeakDetectionCriterion) :=
  match first_char buffer with
  | Some "T"%char => [option_map TimeBased (TimeBasedFlowRateCriterion.deserialize buffer)]
  | Some "P"%char => [option_map Probe (ProbeLeakDetectionCriterion.deserialize buffer)]
  | _ => []
  end.

(** The entries [loadFromString] hands to [addCriterion] for a whole string,
    in order, whether or not they fit. *)
Fixpoint loaded_entries (serialized buffer : string) : list (option LeakDetectionCriterion) :=
  match serialized with
  | EmptyString => []
  | String c rest =>
      let buffer := push buffer c in
      if Ascii.eqb c "|" then
        chunk_entries (Truncate buffer (String.length buffer - 1)) ++ loaded_entries rest EmptyString
      else loaded_entries rest buffer
  end.

(** [s] does not contain the character [c]. *)
Fixpoint excludes (c : ascii) (s : string) : bool :=
  match s with
  | EmptyString => true
  | String x s' => negb (Ascii.eqb x c) && excludes c s'
  end.

(** The documented record formats (spec section 4.4). *)
Definition flow_record (threshold_code duration : Z) : string :=
  ("T," ++ Of threshold_code ++ "," ++ Of duration ++ ",")%string.

Definition probe_record (probeId : Z) : string := ("P," ++ Of probeId ++ ",")%string.

(** The threshold field of the record of a flow-rate criterion. *)
Definition threshold_code (r : Q) : Z := int_of_float (fmul r 100).

(** Well-formed configuration: thresholds in [0, 40000] litres per minute
    (so the threshold field is at most 7 characters), durations whose field
    fits in its [StaticString<8>], probe ids of type [uint8_t]. *)
Definition wf_criterion (c : LeakDetectionCriterion) : Prop :=
  match c with
  | TimeBased c =>
      (0 <= TimeBasedFlowRateCriterion.rateThreshold c <= 40000)%Q /\
      fits8 (int_cast (TimeBasedFlowRateCriterion.minDuration c)) = true
  | Probe c => 0 <= ProbeLeakDetectionCriterion.probeId c < 256
  end.

(** The numeric fields of a criterion fit in their [StaticString<8>]. *)
Definition fits_criterion (c : LeakDetectionCriterion) : Prop :=
  match c with
  | TimeBased c =>
      fits8 (int_of_float (fmul (TimeBasedFlowRateCriterion.rateThreshold c) 100)) = true /\
      fits8 (int_cast (TimeBasedFlowRateCriterion.minDuration c)) = true
  | Probe c => 0 <= ProbeLeakDetectionCriterion.probeId c < 256
  end.

(** The document of a list of (non-null) criteria: each record followed by '|'. *)
Definition document (cs : list LeakDetectionCriterion) : string :=
  fold_right (fun c doc => (criterion_serialize c ++ "|" ++ doc)%string) EmptyString cs.

(** The criterion that loading the record of [c] reconstructs. *)
Definition reload (c : LeakDetectionCriterion) : LeakDetectionCriterion :=
  match c with
  | TimeBased c =>
      TimeBased (TimeBasedFlowRateCriterion.new
                   (fdiv (float_of_int (threshold_code (TimeBasedFlowRateCriterion.rateThreshold c))) 100)
                   (int_cast (TimeBasedFlowRateCriterion.minDuration c)))
  | Probe c => Probe (ProbeLeakDetectionCriterion.new (to_uint8 (ProbeLeakDetectionCriterion.probeId c)))
  end.

(** * Properties *)

(** ** Length of the decimal text of a field *)

Lemma is_nil_true d : is_nil d = true -> d = Decimal.Nil.
Proof. destruct d; easy. Qed.

Lemma top_nz_double d :
  (top_nz d = true -> top_nz (Decimal.Little.double d) = true) /\
  (top_nz d = true -> top_nz (Decimal.Little.succ_double d) = true).
Proof.
  induction d as [|d [IH1 IH2]|d [IH1 IH2]|d [IH1 IH2]|d [IH1 IH2]|d [IH1 IH2]
                  |d [IH1 IH2]|d [IH1 IH2]|d [IH1 IH2]|d [IH1 IH2]|d [IH1 IH2]];
    split; intro H; simpl in H |- *; try discriminate;
    try (destruct (is_nil d) eqn:E;
         [apply is_nil_true in E; subst; reflexivity | simpl in H]);
    first [rewrite (IH1 H) | rewrite (IH2 H)]; now rewrite ?orb_true_r.
Qed.

Lemma top_nz_lower d :
  top_nz d = true ->
  (10 ^ N.of_nat (Decimal.nb_digits d - 1) <= DecimalPos.Unsigned.of_lu d)%N.
Proof.
  induction d as [|d IH|d IH|d IH|d IH|d IH|d IH|d IH|d IH|d IH|d IH];
    intro H; simpl in H; try discriminate;
    try (destruct (is_nil d) eqn:E;
         [apply is_nil_true in E; subst; simpl; lia | simpl in H]);
    specialize (IH H);
    assert (Hn : (1 <= Decimal.nb_digits d)%nat) by (destruct d; [discriminate H | simpl; lia ..]);
    cbn [Decimal.nb_digits DecimalPos.Unsigned.of_lu];
    replace (S (Decimal.nb_digits d) - 1)%nat with (S (Decimal.nb_digits d - 1)) by lia;
    rewrite Nat2N.inj_succ, N.pow_succ_r'; lia.
Qed.

Lemma little_uint_props p :
  top_nz (Pos.to_little_uint p) = true /\ DecimalPos.Unsigned.of_lu (Pos.to_little_uint p) = Npos p.
Proof.
  induction p as [p [IH1 IH2]|p [IH1 IH2]|]; simpl; [| |now split].
  - split; [now apply top_nz_double|]. now rewrite DecimalPos.Unsigned.of_lu_succ_double, IH2.
  - split; [now apply top_nz_double|]. now rewrite DecimalPos.Unsigned.of_lu_double, IH2.
Qed.

Lemma nb_digits_to_uint p n :
  (Npos p < 10 ^ N.of_nat n)%N -> (Decimal.nb_digits (Pos.to_uint p) <= n)%nat.
Proof.
  intro Hp. unfold Pos.to_uint. rewrite DecimalFacts.nb_digits_rev.
  destruct (little_uint_props p) as [Ht Hv].
  pose proof (top_nz_lower _ Ht) as Hl. rewrite Hv in Hl.
  assert (Hlt : (10 ^ N.of_nat (Decimal.nb_digits (Pos.to_little_uint p) - 1) < 10 ^ N.of_nat n)%N) by lia.
  apply N.pow_lt_mono_r_iff in Hlt; [|lia].
  destruct (Pos.to_little_uint p); simpl in *; lia.
Qed.

Lemma string_of_uint_length d :
  String.length (NilEmpty.string_of_uint d) = Decimal.nb_digits d.
Proof. induction d; simpl; congruence. Qed.

Lemma Of_length n :
  -9999999 <= n <= 99999999 -> (String.length (Of n) <= 8)%nat.
Proof.
  intro Hn. unfold Of. destruct n as [|p|p]; simpl.
  - lia.
  - rewrite string_of_uint_length. apply nb_digits_to_uint.
    change (10 ^ N.of_nat 8)%N with 100000000%N. lia.
  - rewrite string_of_uint_length.
    enough (Decimal.nb_digits (Pos.to_uint p) <= 7)%nat by lia.
    apply nb_digits_to_uint. change (10 ^ N.of_nat 7)%N with 10000000%N. lia.
Qed.

Section TimeBasedLemmas.

Import TimeBasedFlowRateCriterion.

Lemma update_ge (c : t) s dt :
  (rateThreshold c <= flowRate s)%Q ->
  update c s dt = mk (rateThreshold c) (minDuration c) (accumulatedTime c + dt) true.
Proof.
  intros H. unfold update. apply Qle_bool_iff in H. now rewrite H.
Qed.

Lemma update_lt (c : t) s dt :
  (flowRate s < rateThreshold c)%Q ->
  update c s dt = mk (rateThreshold c) (minDuration c) 0 false.
Proof.
  intros H. unfold update.
  destruct (Qle_bool (rateThreshold c) (flowRate s)) eqn:E; [|reflexivity].
  apply Qle_bool_iff in E. exfalso. now apply (Qlt_not_le _ _ H).
Qed.

Lemma getAction_some (c : t) :
  getAction c = Some close_for_flow <-> active c = true /\ minDuration c <= accumulatedTime c.
Proof.
  unfold getAction. destruct (active c), (Z.leb_spec (minDuration c) (accumulatedTime c));
    simpl; split; intros Hx; try discriminate; intuition (try lia); congruence.
Qed.

Lemma getAction_none (c : t) :
  getAction c = None <-> ~ (active c = true /\ minDuration c <= accumulatedTime c).
Proof.
  unfold getAction. destruct (active c), (Z.leb_spec (minDuration c) (accumulatedTime c));
    simpl; split; intros Hx; try discriminate; intuition (try lia); congruence.
Qed.

Lemma run_sustained r d acc act ticks :
  Forall (fun tick => (r <= flowRate (fst tick))%Q) ticks ->
  run_TimeBased (mk r d acc act) ticks =
  match ticks with
  | [] => mk r d acc act
  | _ => mk r d (acc + total_elapsed ticks) true
  end.
Proof.
  revert acc act. induction ticks as [|[s dt] ticks IH]; intros acc act H; [reflexivity|].
  inversion H as [|? ? Hs Hrest]; subst. unfold run_TimeBased; simpl.
  rewrite (update_ge (mk r d acc act)) by exact Hs. simpl.
  fold (run_TimeBased (mk r d (acc + dt) true) ticks).
  rewrite (IH _ _ Hrest). destruct ticks; simpl; f_equal; lia.
Qed.

End TimeBasedLemmas.

(** C1: the flow-rate criterion.  An update at a flow rate [>=] the threshold
    adds the elapsed time and sets [active]; an update below it resets the
    accumulator to 0 and clears [active]; [getAction] yields
    CloseValve/ExceededFlowRate exactly when [active] and
    [accumulatedTime >= minDuration]; so from construction, under sustained
    flow [>= r], every tick yields nothing while the total elapsed time is
    below [d] and CloseValve from the tick where it reaches [d]. *)
Theorem C1_time_based_flow_rate :
  (forall (c : TimeBasedFlowRateCriterion.t) s dt,
     (TimeBasedFlowRateCriterion.rateThreshold c <= flowRate s)%Q ->
     TimeBasedFlowRateCriterion.update c s dt =
     TimeBasedFlowRateCriterion.mk (TimeBasedFlowRateCriterion.rateThreshold c)
       (TimeBasedFlowRateCriterion.minDuration c)
       (TimeBasedFlowRateCriterion.accumulatedTime c + dt) true) /\
  (forall (c : TimeBasedFlowRateCriterion.t) s dt,
     (flowRate s < TimeBasedFlowRateCriterion.rateThreshold c)%Q ->
     TimeBasedFlowRateCriterion.update c s dt =
     TimeBasedFlowRateCriterion.mk (TimeBasedFlowRateCriterion.rateThreshold c)
       (TimeBasedFlowRateCriterion.minDuration c) 0 false) /\
  (forall c : TimeBasedFlowRateCriterion.t,
     TimeBasedFlowRateCriterion.getAction c = Some close_for_flow <->
     TimeBasedFlowRateCriterion.active c = true /\
     TimeBasedFlowRateCriterion.minDuration c <= TimeBasedFlowRateCriterion.accumulatedTime c) /\
  (forall c : TimeBasedFlowRateCriterion.t,
     TimeBasedFlowRateCriterion.getAction c = None <->
     ~ (TimeBasedFlowRateCriterion.active c = true /\
        TimeBasedFlowRateCriterion.minDuration c <= TimeBasedFlowRateCriterion.accumulatedTime c)) /\
  (forall r d ticks,
     ticks <> [] ->
     Forall (fun tick => (r <= flowRate (fst tick))%Q) ticks ->
     TimeBasedFlowRateCriterion.getAction (run_TimeBased (TimeBasedFlowRateCriterion.new r d) ticks) =
     if d <=? total_elapsed ticks then Some close_for_flow else None).
Proof.
  split; [exact update_ge|]. split; [exact update_lt|].
  split; [exact getAction_some|]. split; [exact getAction_none|].
  intros r d ticks Hne Hall. unfold TimeBasedFlowRateCriterion.new.
  rewrite (run_sustained r d 0 false ticks Hall).
  destruct ticks as [|t ts]; [congruence|].
  unfold TimeBasedFlowRateCriterion.getAction; simpl.
  destruct (d <=? snd t + total_elapsed ts); reflexivity.
Qed.

Section ProbeLemmas.

Import ProbeLeakDetectionCriterion.

Lemma fold_any (l : list bool) (acc : bool) :
  fold_left (fun leakDetected (state : bool) => if state then true else leakDetected) l acc =
  acc || existsb (fun b => b) l.
Proof.
  revert acc. induction l as [|b l IH]; intros acc; simpl.
  - now rewrite orb_false_r.
  - rewrite IH. destruct b, acc; reflexivity.
Qed.

Lemma update_leakDetected (c : t) s dt :
  leakDetected (update c s dt) = existsb (fun b => b) (probeStates s).
Proof. unfold update; simpl. now rewrite fold_any. Qed.

Lemma update_probeId (c : t) s dt : probeId (update c s dt) = probeId c.
Proof. reflexivity. Qed.

Lemma getAction_spec (c : t) :
  getAction c =
  if leakDetected c
  then Some (mkLeakPreventionAction CLOSE_VALVE LEAK_DETECTED_BY_PROBE (probeId c))
  else None.
Proof. reflexivity. Qed.

End ProbeLemmas.

(** C2: the probe criterion.  [update] sets [leakDetected] exactly when some
    probe of the whole probe-state sequence reports true (the criterion's
    own id plays no part), [getAction] yields CloseValve/LeakDetectedByProbe
    carrying the configured id exactly when [leakDetected]; in particular a
    [LeakLogic] holding only [ProbeLeakDetectionCriterion(42)], updated with
    [probeStates[42] = true], yields CloseValve, LeakDetectedByProbe, 42. *)
Theorem C2_probe_criterion :
  (forall (c : ProbeLeakDetectionCriterion.t) s dt,
     ProbeLeakDetectionCriterion.leakDetected (ProbeLeakDetectionCriterion.update c s dt) = true <->
     exists i, nth_error (probeStates s) i = Some true) /\
  (forall (c : ProbeLeakDetectionCriterion.t) s dt,
     ProbeLeakDetectionCriterion.probeId (ProbeLeakDetectionCriterion.update c s dt) =
     ProbeLeakDetectionCriterion.probeId c) /\
  (forall c : ProbeLeakDetectionCriterion.t,
     ProbeLeakDetectionCriterion.getAction c =
       Some (mkLeakPreventionAction CLOSE_VALVE LEAK_DETECTED_BY_PROBE
               (ProbeLeakDetectionCriterion.probeId c)) <->
     ProbeLeakDetectionCriterion.leakDetected c = true) /\
  (forall c : ProbeLeakDetectionCriterion.t,
     ProbeLeakDetectionCriterion.getAction c = None <->
     ProbeLeakDetectionCriterion.leakDetected c = false) /\
  (forall rate ps dt,
     nth_error ps 42 = Some true ->
     exists logic,
       LeakLogic.update (LeakLogic.mk [Some (Probe (ProbeLeakDetectionCriterion.new 42))])
         (mkSensorState rate ps) dt = Ok logic /\
       LeakLogic.getAction logic =
         Ok (mkLeakPreventionAction CLOSE_VALVE LEAK_DETECTED_BY_PROBE 42)).
Proof.
  split.
  { intros c s dt. rewrite update_leakDetected, existsb_exists. split.
    - intros [b [Hin Hb]]. subst b. now apply In_nth_error.
    - intros [i Hi]. exists true. split; [|reflexivity]. eapply nth_error_In; eauto. }
  split; [exact update_probeId|].
  split.
  { intros c. rewrite getAction_spec. destruct (ProbeLeakDetectionCriterion.leakDetected c);
      split; congruence. }
  split.
  { intros c. rewrite getAction_spec. destruct (ProbeLeakDetectionCriterion.leakDetected c);
      split; congruence. }
  intros rate ps dt H42. eexists. split; [reflexivity|].
  unfold LeakLogic.getAction; simpl. unfold ProbeLeakDetectionCriterion.getAction; simpl.
  rewrite fold_any; simpl.
  replace (existsb (fun b => b) ps) with true; [reflexivity|].
  symmetry. apply existsb_exists. exists true. split; [|reflexivity].
  eapply nth_error_In; eauto.
Qed.

(** C10: the probe criterion does not latch.  After an update in which every
    probe reports false, [getAction] is empty, whatever the criterion's
    state before. *)
Theorem C10_probe_not_latching :
  forall (c : ProbeLeakDetectionCriterion.t) s dt,
    Forall (fun b => b = false) (probeStates s) ->
    ProbeLeakDetectionCriterion.getAction (ProbeLeakDetectionCriterion.update c s dt) = None.
Proof.
  intros c s dt Hall. rewrite getAction_spec, update_leakDetected.
  replace (existsb (fun b => b) (probeStates s)) with false; [reflexivity|].
  symmetry. apply Bool.not_true_iff_false. intros Hex.
  apply existsb_exists in Hex as [b [Hin Hb]]. subst b.
  rewrite Forall_forall in Hall. specialize (Hall true Hin). discriminate.
Qed.

Lemma getAction_loop_silent_prefix pre rest :
  Forall (fun c => criterion_getAction c = None) pre ->
  LeakLogic.getAction_loop (map Some pre ++ rest) = LeakLogic.getAction_loop rest.
Proof.
  induction 1 as [|c pre Hc _ IH]; [reflexivity|].
  simpl. now rewrite Hc.
Qed.

(** C3: first-match priority.  [LeakLogic::getAction] returns the action of
    the first criterion, in insertion order, whose [getAction] is non-empty,
    and NoAction/None when none fires; so of two criteria that both fire,
    the one registered first decides. *)
Theorem C3_first_match :
  (forall pre c post action,
     Forall (fun c => criterion_getAction c = None) pre ->
     criterion_getAction c = Some action ->
     LeakLogic.getAction (LeakLogic.mk (map Some (pre ++ c :: post))) = Ok action) /\
  (forall cs,
     Forall (fun c => criterion_getAction c = None) cs ->
     LeakLogic.getAction (LeakLogic.mk (map Some cs)) = Ok no_action) /\
  (forall pre c1 mid c2 post a1 a2,
     Forall (fun c => criterion_getAction c = None) pre ->
     criterion_getAction c1 = Some a1 ->
     criterion_getAction c2 = Some a2 ->
     LeakLogic.getAction (LeakLogic.mk (map Some (pre ++ c1 :: mid ++ c2 :: post))) = Ok a1).
Proof.
  assert (first : forall pre c post action,
     Forall (fun c => criterion_getAction c = None) pre ->
     criterion_getAction c = Some action ->
     LeakLogic.getAction (LeakLogic.mk (map Some (pre ++ c :: post))) = Ok action).
  { intros pre c post action Hpre Hc. unfold LeakLogic.getAction; simpl.
    rewrite map_app, getAction_loop_silent_prefix by exact Hpre. simpl. now rewrite Hc. }
  split; [exact first|]. split.
  - intros cs Hcs. unfold LeakLogic.getAction; simpl.
    rewrite <- (app_nil_r (map Some cs)), getAction_loop_silent_prefix by exact Hcs.
    reflexivity.
  - intros pre c1 mid c2 post a1 a2 Hpre H1 _. now apply first.
Qed.

(** C6: capacity of [LeakLogic].  With 10 criteria, [addCriterion] returns
    false and leaves the criteria as they are; with fewer, it appends the
    new criterion after all the others and returns true. *)
Theorem C6_add_criterion_capacity :
  (forall (logic : LeakLogic.t) criterion,
     List.length (LeakLogic.criteria logic) = 10%nat ->
     LeakLogic.addCriterion logic criterion = (false, logic)) /\
  (forall (logic : LeakLogic.t) criterion,
     (List.length (LeakLogic.criteria logic) < 10)%nat ->
     LeakLogic.addCriterion logic criterion =
     (true, LeakLogic.mk (LeakLogic.criteria logic ++ [criterion]))).
Proof.
  split; intros [cs] criterion Hlen; simpl in Hlen;
    unfold LeakLogic.addCriterion, Append; simpl.
  - rewrite Hlen. reflexivity.
  - replace (Nat.eqb (List.length cs) LEAK_LOGIC_MAX_CRITERIA) with false; [reflexivity|].
    symmetry. apply Nat.eqb_neq. unfold LEAK_LOGIC_MAX_CRITERIA. lia.
Qed.

(** ** Strings *)

Lemma str_app_assoc (a b c : string) : (a ++ (b ++ c) = (a ++ b) ++ c)%string.
Proof. induction a as [|x a IH]; simpl; [reflexivity|]. now rewrite IH. Qed.

Lemma str_app_nil (a : string) : (a ++ "" = a)%string.
Proof. induction a as [|x a IH]; simpl; [reflexivity|]. now rewrite IH. Qed.

Lemma str_length_app (a b : string) :
  String.length (a ++ b) = (String.length a + String.length b)%nat.
Proof. induction a as [|x a IH]; simpl; [reflexivity|]. now rewrite IH. Qed.

Lemma substring_prefix (a b : string) : substring 0 (String.length a) (a ++ b) = a.
Proof.
  induction a as [|x a IH]; simpl.
  - destruct b; reflexivity.
  - now rewrite IH.
Qed.

(** Appending a character and then truncating the last one restores the buffer. *)
Lemma Truncate_push (b : string) (c : ascii) :
  Truncate (push b c) (String.length (push b c) - 1) = b.
Proof.
  unfold Truncate, push. rewrite str_length_app. simpl.
  replace (String.length b + 1 - 1)%nat with (String.length b) by lia.
  apply substring_prefix.
Qed.

Lemma excludes_app c a b : excludes c (a ++ b) = excludes c a && excludes c b.
Proof.
  induction a as [|x a IH]; simpl; [reflexivity|]. rewrite IH. now rewrite andb_assoc.
Qed.

Lemma Of_excludes n : excludes "," (Of n) = true /\ excludes "|" (Of n) = true.
Proof.
  assert (Hu : forall d, excludes "," (NilEmpty.string_of_uint d) = true /\
                         excludes "|" (NilEmpty.string_of_uint d) = true)
    by (induction d; simpl; tauto).
  unfold Of. destruct (Z.to_int n); simpl; apply Hu.
Qed.

Lemma ToInteger_Of n : ToInteger (Of n) = n.
Proof.
  unfold ToInteger, Of. rewrite NilEmpty.isi. apply DecimalZ.of_to.
Qed.

(** ** The character loops of the codec *)

Lemma tb_loop_cons c rest buf st r :
  TimeBasedFlowRateCriterion.deserialize_loop (String c rest) buf st r =
  if Ascii.eqb c "," then
    match st with
    | TimeBasedFlowRateCriterion.TYPE =>
        TimeBasedFlowRateCriterion.deserialize_loop rest EmptyString
          TimeBasedFlowRateCriterion.RATE_THRESH r
    | TimeBasedFlowRateCriterion.RATE_THRESH =>
        TimeBasedFlowRateCriterion.deserialize_loop rest EmptyString
          TimeBasedFlowRateCriterion.MIN_DURATION (fdiv (float_of_int (ToInteger buf)) 100)
    | TimeBasedFlowRateCriterion.MIN_DURATION =>
        Some (TimeBasedFlowRateCriterion.new r (ToInteger buf))
    end
  else TimeBasedFlowRateCriterion.deserialize_loop rest (push buf c) st r.
Proof.
  cbn -[push Truncate]. destruct (Ascii.eqb c ","); [|reflexivity].
  now rewrite Truncate_push.
Qed.

Lemma tb_loop_skip s rest buf st r :
  excludes "," s = true ->
  TimeBasedFlowRateCriterion.deserialize_loop (s ++ rest) buf st r =
  TimeBasedFlowRateCriterion.deserialize_loop rest (buf ++ s) st r.
Proof.
  revert buf. induction s as [|x s IH]; intros buf Hs.
  - simpl. now rewrite str_app_nil.
  - cbn [String.append]. simpl in Hs. apply andb_prop in Hs as [Hx Hs].
    rewrite tb_loop_cons. apply negb_true_iff in Hx. rewrite Hx.
    rewrite IH by exact Hs. unfold push. now rewrite <- str_app_assoc.
Qed.

Lemma probe_loop_cons c rest buf st :
  ProbeLeakDetectionCriterion.deserialize_loop (String c rest) buf st =
  if Ascii.eqb c "," then
    match st with
    | ProbeLeakDetectionCriterion.TYPE =>
        ProbeLeakDetectionCriterion.deserialize_loop rest EmptyString
          ProbeLeakDetectionCriterion.PROBE_ID
    | ProbeLeakDetectionCriterion.PROBE_ID =>
        Some (ProbeLeakDetectionCriterion.new (to_uint8 (ToInteger buf)))
    end
  else ProbeLeakDetectionCriterion.deserialize_loop rest (push buf c) st.
Proof.
  cbn -[push Truncate]. destruct (Ascii.eqb c ","); [|reflexivity].
  now rewrite Truncate_push.
Qed.

Lemma probe_loop_skip s rest buf st :
  excludes "," s = true ->
  ProbeLeakDetectionCriterion.deserialize_loop (s ++ rest) buf st =
  ProbeLeakDetectionCriterion.deserialize_loop rest (buf ++ s) st.
Proof.
  revert buf. induction s as [|x s IH]; intros buf Hs.
  - simpl. now rewrite str_app_nil.
  - cbn [String.append]. simpl in Hs. apply andb_prop in Hs as [Hx Hs].
    rewrite probe_loop_cons. apply negb_true_iff in Hx. rewrite Hx.
    rewrite IH by exact Hs. unfold push. now rewrite <- str_app_assoc.
Qed.

Lemma load_loop_cons c rest buf logic :
  LeakLogic.loadFromString_loop (String c rest) buf logic =
  if Ascii.eqb c "|" then LeakLogic.loadFromString_loop rest EmptyString (LeakLogic.load_chunk logic buf)
  else LeakLogic.loadFromString_loop rest (push buf c) logic.
Proof.
  cbn -[push Truncate LeakLogic.load_chunk]. destruct (Ascii.eqb c "|"); [|reflexivity].
  now rewrite Truncate_push.
Qed.

Lemma load_loop_skip s rest buf logic :
  excludes "|" s = true ->
  LeakLogic.loadFromString_loop (s ++ rest) buf logic =
  LeakLogic.loadFromString_loop rest (buf ++ s) logic.
Proof.
  revert buf. induction s as [|x s IH]; intros buf Hs.
  - simpl. now rewrite str_app_nil.
  - cbn [String.append]. simpl in Hs. apply andb_prop in Hs as [Hx Hs].
    rewrite load_loop_cons. apply negb_true_iff in Hx. rewrite Hx.
    rewrite IH by exact Hs. unfold push. now rewrite <- str_app_assoc.
Qed.

Lemma entries_cons c rest buf :
  loaded_entries (String c rest) buf =
  if Ascii.eqb c "|" then chunk_entries buf ++ loaded_entries rest EmptyString
  else loaded_entries rest (push buf c).
Proof.
  cbn -[push Truncate chunk_entries]. destruct (Ascii.eqb c "|"); [|reflexivity].
  now rewrite Truncate_push.
Qed.

Lemma entries_skip s rest buf :
  excludes "|" s = true ->
  loaded_entries (s ++ rest) buf = loaded_entries rest (buf ++ s).
Proof.
  revert buf. induction s as [|x s IH]; intros buf Hs.
  - simpl. now rewrite str_app_nil.
  - cbn [String.append]. simpl in Hs. apply andb_prop in Hs as [Hx Hs].
    rewrite entries_cons. apply negb_true_iff in Hx. rewrite Hx.
    rewrite IH by exact Hs. unfold push. now rewrite <- str_app_assoc.
Qed.

(** ** Records *)

Lemma TimeBased_serialize_record c :
  TimeBasedFlowRateCriterion.serialize c =
  flow_record (threshold_code (TimeBasedFlowRateCriterion.rateThreshold c))
              (int_cast (TimeBasedFlowRateCriterion.minDuration c)).
Proof. reflexivity. Qed.

Lemma Probe_serialize_record c :
  ProbeLeakDetectionCriterion.serialize c = probe_record (ProbeLeakDetectionCriterion.probeId c).
Proof. reflexivity. Qed.

Lemma flow_record_excludes k d : excludes "|" (flow_record k d) = true.
Proof.
  unfold flow_record. rewrite !excludes_app.
  destruct (Of_excludes k) as [_ ->]. destruct (Of_excludes d) as [_ ->]. reflexivity.
Qed.

Lemma probe_record_excludes p : excludes "|" (probe_record p) = true.
Proof.
  unfold probe_record. rewrite !excludes_app.
  destruct (Of_excludes p) as [_ ->]. reflexivity.
Qed.

Lemma deserialize_flow_record k d :
  TimeBasedFlowRateCriterion.deserialize (flow_record k d) =
  Some (TimeBasedFlowRateCriterion.new (fdiv (float_of_int k) 100) d).
Proof.
  unfold TimeBasedFlowRateCriterion.deserialize, flow_record. cbn [String.append].
  rewrite !tb_loop_cons. simpl Ascii.eqb. cbv iota.
  rewrite tb_loop_skip by apply Of_excludes. cbn [String.append].
  rewrite tb_loop_cons. simpl Ascii.eqb. cbv iota.
  rewrite tb_loop_skip by apply Of_excludes. cbn [String.append].
  rewrite tb_loop_cons. simpl Ascii.eqb. cbv iota.
  now rewrite !ToInteger_Of.
Qed.

Lemma deserialize_probe_record p :
  ProbeLeakDetectionCriterion.deserialize (probe_record p) =
  Some (ProbeLeakDetectionCriterion.new (to_uint8 p)).
Proof.
  unfold ProbeLeakDetectionCriterion.deserialize, probe_record. cbn [String.append].
  rewrite !probe_loop_cons. simpl Ascii.eqb. cbv iota.
  rewrite probe_loop_skip by apply Of_excludes. cbn [String.append].
  rewrite probe_loop_cons. simpl Ascii.eqb. cbv iota.
  now rewrite !ToInteger_Of.
Qed.

Lemma chunk_entries_record c :
  chunk_entries (criterion_serialize c) = [Some (reload c)].
Proof.
  destruct c as [c|c]; simpl criterion_serialize.
  - rewrite TimeBased_serialize_record. unfold chunk_entries.
    replace (first_char _) with (Some "T"%char) by reflexivity.
    now rewrite deserialize_flow_record.
  - rewrite Probe_serialize_record. unfold chunk_entries.
    replace (first_char _) with (Some "P"%char) by reflexivity.
    now rewrite deserialize_probe_record.
Qed.

Lemma criterion_serialize_excludes c : excludes "|" (criterion_serialize c) = true.
Proof.
  destruct c; simpl criterion_serialize.
  - rewrite TimeBased_serialize_record. apply flow_record_excludes.
  - rewrite Probe_serialize_record. apply probe_record_excludes.
Qed.

Lemma serialize_loop_document cs acc :
  LeakLogic.serialize_loop (map Some cs) acc = Ok (acc ++ document cs)%string.
Proof.
  revert acc. induction cs as [|c cs IH]; intros acc; simpl.
  - now rewrite str_app_nil.
  - rewrite IH. now rewrite <- !str_app_assoc.
Qed.

Lemma serialize_document cs :
  LeakLogic.serialize (LeakLogic.mk (map Some cs)) = Ok (document cs).
Proof. apply serialize_loop_document. Qed.

Lemma entries_document cs :
  loaded_entries (document cs) EmptyString = map (fun c => Some (reload c)) cs.
Proof.
  induction cs as [|c cs IH]; [reflexivity|]. simpl document.
  rewrite entries_skip by apply criterion_serialize_excludes.
  cbn [String.append]. rewrite entries_cons. simpl Ascii.eqb. cbv iota.
  rewrite IH. simpl. now rewrite chunk_entries_record.
Qed.

(** ** Appending chunks to a [LeakLogic] *)

Lemma chunk_entries_length b : (List.length (chunk_entries b) <= 1)%nat.
Proof.
  unfold chunk_entries. destruct (first_char b) as [a|]; [|simpl; lia].
  destruct a as [[] [] [] [] [] [] [] []]; simpl; lia.
Qed.

Lemma load_chunk_append cs b :
  (List.length cs <= 10)%nat ->
  LeakLogic.load_chunk (LeakLogic.mk cs) b =
  LeakLogic.mk (cs ++ firstn (10 - List.length cs) (chunk_entries b)).
Proof.
  intros Hlen. unfold LeakLogic.load_chunk, chunk_entries.
  destruct (first_char b) as [a|];
    [|simpl; now rewrite firstn_nil, app_nil_r].
  assert (Hadd : forall x, snd (LeakLogic.addCriterion (LeakLogic.mk cs) x) =
                           LeakLogic.mk (cs ++ firstn (10 - List.length cs) [x])).
  { intros x. unfold LeakLogic.addCriterion, Append, LEAK_LOGIC_MAX_CRITERIA.
    cbn [LeakLogic.criteria].
    destruct (Nat.eqb_spec (List.length cs) 10) as [E|E].
    - rewrite E. simpl. now rewrite app_nil_r.
    - destruct (10 - List.length cs)%nat eqn:Hn; [lia|]. simpl. now rewrite firstn_nil. }
  destruct a as [[] [] [] [] [] [] [] []];
    try (simpl; now rewrite firstn_nil, app_nil_r); apply Hadd.
Qed.

Lemma load_loop_append s buf cs :
  (List.length cs <= 10)%nat ->
  LeakLogic.loadFromString_loop s buf (LeakLogic.mk cs) =
  LeakLogic.mk (cs ++ firstn (10 - List.length cs) (loaded_entries s buf)).
Proof.
  revert buf cs. induction s as [|c s IH]; intros buf cs Hlen.
  - simpl. now rewrite firstn_nil, app_nil_r.
  - rewrite load_loop_cons, entries_cons.
    destruct (Ascii.eqb c "|").
    + rewrite load_chunk_append by exact Hlen.
      pose proof (chunk_entries_length buf) as He.
      assert (Hlen' : (List.length (cs ++ firstn (10 - List.length cs) (chunk_entries buf)) <= 10)%nat).
      { rewrite length_app, length_firstn. lia. }
      rewrite IH by exact Hlen'. rewrite <- app_assoc, firstn_app.
      replace (10 - List.length (cs ++ firstn (10 - List.length cs) (chunk_entries buf)))%nat
        with (10 - List.length cs - List.length (chunk_entries buf))%nat; [reflexivity|].
      rewrite length_app, length_firstn.
      destruct (Nat.min_spec (10 - List.length cs) (List.length (chunk_entries buf))); lia.
    + now apply IH.
Qed.

Lemma load_loop_no_bar s buf logic :
  excludes "|" s = true -> LeakLogic.loadFromString_loop s buf logic = logic.
Proof.
  revert buf. induction s as [|c s IH]; intros buf Hs; [reflexivity|].
  simpl in Hs. apply andb_prop in Hs as [Hc Hs].
  rewrite load_loop_cons. apply negb_true_iff in Hc. rewrite Hc. now apply IH.
Qed.

Lemma load_loop_trailing d s buf logic :
  excludes "|" s = true ->
  LeakLogic.loadFromString_loop (d ++ s) buf logic = LeakLogic.loadFromString_loop d buf logic.
Proof.
  intros Hs. revert buf logic. induction d as [|c d IH]; intros buf logic.
  - simpl. now apply load_loop_no_bar.
  - cbn [String.append]. rewrite !load_loop_cons. destruct (Ascii.eqb c "|"); apply IH.
Qed.

Lemma load_document cs :
  (List.length cs <= 10)%nat ->
  LeakLogic.loadFromString LeakLogic.empty (document cs) =
  LeakLogic.mk (map (fun c => Some (reload c)) cs).
Proof.
  intros Hlen. unfold LeakLogic.loadFromString, LeakLogic.empty.
  rewrite load_loop_append by (simpl; lia). rewrite entries_document.
  rewrite firstn_all2; [reflexivity|]. rewrite length_map. simpl. lia.
Qed.

(** C5 (defect): a malformed 'T' record ("T,200," lacks its duration field)
    makes [TimeBasedFlowRateCriterion::deserialize] return [nullptr], and
    [loadFromString] passes it to [addCriterion] unchecked: the null pointer
    is stored as a criterion, after which [getAction] and [update]
    dereference it. *)
Theorem C5_malformed_chunk_stores_null :
  LeakLogic.criteria (LeakLogic.loadFromString LeakLogic.empty "T,200,|P,42,|") =
    [None; Some (Probe (ProbeLeakDetectionCriterion.new 42))] /\
  LeakLogic.getAction (LeakLogic.loadFromString LeakLogic.empty "T,200,|P,42,|") = NullDeref /\
  (forall s dt,
     LeakLogic.update (LeakLogic.loadFromString LeakLogic.empty "T,200,|P,42,|") s dt = NullDeref).
Proof.
  split; [vm_compute; reflexivity|]. split; [vm_compute; reflexivity|].
  intros s dt. vm_compute. reflexivity.
Qed.

(** C7, counterexample: the duration field is [static_cast<int>(minDuration)],
    not [minDuration]: a duration of 2^32 + 60 seconds is written as 60. *)
Lemma C7_duration_field_counterexample :
  ~ (forall r d,
       TimeBasedFlowRateCriterion.serialize (TimeBasedFlowRateCriterion.new r d) =
       flow_record (threshold_code r) d).
Proof.
  intros H. specialize (H 2%Q 4294967356).
  vm_compute in H. discriminate H.
Qed.

(** C7, amended: a flow-rate criterion whose two fields fit in their
    [StaticString<8>] ([fits8]) serializes to
    "T,<static_cast<int>(r*100)>,<static_cast<int>(d)>," (the duration field
    is [d] itself for [-2^31 <= d < 2^31]), a probe criterion to
    "P,<probeId>,", and a [LeakLogic] of up to 10 such criteria to the
    concatenation, in insertion order, of each record followed by '|', the
    empty set to "". *)
Theorem C7_serialize_format :
  (forall c : TimeBasedFlowRateCriterion.t,
     fits8 (int_of_float (fmul (TimeBasedFlowRateCriterion.rateThreshold c) 100)) = true ->
     fits8 (int_cast (TimeBasedFlowRateCriterion.minDuration c)) = true ->
     TimeBasedFlowRateCriterion.serialize c =
     flow_record (int_of_float (fmul (TimeBasedFlowRateCriterion.rateThreshold c) 100))
                 (int_cast (TimeBasedFlowRateCriterion.minDuration c))) /\
  (forall d, -2^31 <= d < 2^31 -> int_cast d = d) /\
  (forall c : ProbeLeakDetectionCriterion.t,
     0 <= ProbeLeakDetectionCriterion.probeId c < 256 ->
     ProbeLeakDetectionCriterion.serialize c = probe_record (ProbeLeakDetectionCriterion.probeId c)) /\
  (forall cs,
     (List.length cs <= 10)%nat -> Forall fits_criterion cs ->
     LeakLogic.serialize (LeakLogic.mk (map Some cs)) =
     Ok (fold_right (fun c doc => (criterion_serialize c ++ "|" ++ doc)%string) EmptyString cs)) /\
  LeakLogic.serialize LeakLogic.empty = Ok EmptyString.
Proof.
  split; [reflexivity|]. split.
  { intros d Hd. unfold int_cast. rewrite Z.mod_small by lia. lia. }
  split; [reflexivity|]. split; [intros cs _ _; exact (serialize_document cs)|]. reflexivity.
Qed.

(** C8, counterexample: a final record not followed by '|' is not loaded. *)
Lemma C8_unterminated_record_counterexample :
  LeakLogic.criteria (LeakLogic.loadFromString LeakLogic.empty "P,42,") = [] /\
  LeakLogic.criteria (LeakLogic.loadFromString LeakLogic.empty "P,42,|") =
    [Some (Probe (ProbeLeakDetectionCriterion.new 42))].
Proof. split; vm_compute; reflexivity. Qed.

(** C8, amended: [loadFromString] only acts on chunks terminated by '|';
    whatever follows the last '|' is ignored. *)
Theorem C8_trailing_text_ignored :
  forall (logic : LeakLogic.t) (doc rest : string),
    excludes "|" rest = true ->
    LeakLogic.loadFromString logic (doc ++ rest) = LeakLogic.loadFromString logic doc.
Proof.
  intros logic doc rest Hrest. unfold LeakLogic.loadFromString.
  now apply load_loop_trailing.
Qed.

(** C9, counterexample: with 10 criteria already held, the criterion of the
    record "P,1,|" is not added (the capacity is exhausted and the failure of
    [addCriterion] is ignored). *)
Lemma C9_full_logic_counterexample :
  let full := LeakLogic.mk (repeat (Some (Probe (ProbeLeakDetectionCriterion.new 7))) 10) in
  LeakLogic.criteria (LeakLogic.loadFromString full "P,1,|") = LeakLogic.criteria full /\
  LeakLogic.criteria (LeakLogic.loadFromString full "P,1,|") <>
    LeakLogic.criteria full ++ [Some (Probe (ProbeLeakDetectionCriterion.new 1))].
Proof.
  simpl. split; [vm_compute; reflexivity|].
  vm_compute. intros H. inversion H.
Qed.

(** C9, amended: [loadFromString] only appends.  The existing criteria stay in
    place and in order, and the entries loaded from the string follow them in
    order, as many as fit in the capacity of 10. *)
Theorem C9_load_appends :
  forall (logic : LeakLogic.t) (serialized : string),
    (List.length (LeakLogic.criteria logic) <= 10)%nat ->
    LeakLogic.criteria (LeakLogic.loadFromString logic serialized) =
    LeakLogic.criteria logic ++
      firstn (10 - List.length (LeakLogic.criteria logic)) (loaded_entries serialized EmptyString).
Proof.
  intros [cs] serialized Hlen. simpl in *. unfold LeakLogic.loadFromString.
  now rewrite load_loop_append.
Qed.

(** ** Binary32 rounding error *)

Local Notation u32 := (1 # 16777216)%Q.
Local Notation tiny32 := (1 # 1427247692705959881058285969449495136382746624)%Q.

Lemma pow2_pos e : (0 < pow2 e)%Q.
Proof. apply Qpower_0_lt. unfold Qlt; simpl; lia. Qed.

Lemma pow2_neq0 e : ~ (pow2 e == 0)%Q.
Proof. pose proof (pow2_pos e). intros H'. rewrite H' in H. apply (Qlt_irrefl 0 H). Qed.

Lemma pow2_plus m n : (pow2 (m + n) == pow2 m * pow2 n)%Q.
Proof. apply Qpower_plus. unfold Qeq; simpl; lia. Qed.

Lemma pow2_Z n : 0 <= n -> (pow2 n == inject_Z (2 ^ n))%Q.
Proof. intros Hn. unfold pow2. rewrite Zpower_Qpower by exact Hn. reflexivity. Qed.

Lemma round_ne_err y :
  (- (1#2) <= inject_Z (round_ne y) - y <= 1#2)%Q.
Proof.
  unfold round_ne. pose proof (Qfloor_le y) as H1. pose proof (Qlt_floor y) as H2.
  rewrite inject_Z_plus in H2. change (inject_Z 1) with 1%Q in H2.
  destruct (Qcompare_spec (y - inject_Z (Qfloor y)) (1#2)) as [E|E|E];
    [destruct (Z.even (Qfloor y))|..];
    rewrite ?inject_Z_plus; change (inject_Z 1) with 1%Q; split; lra.
Qed.

Lemma round_ne_nonneg y : (0 <= y)%Q -> 0 <= round_ne y.
Proof.
  intros Hy. assert (H0 : 0 <= Qfloor y).
  { change 0 with (Qfloor 0). now apply Qfloor_resp_le. }
  unfold round_ne. destruct (_ ?= _)%Q; [destruct (Z.even _)|..]; lia.
Qed.

(** [Z.log2] of numerator and denominator place [x / 2^e0] above [2^22]. *)
Lemma fexp0_lower x :
  (0 < x)%Q ->
  (pow2 22 <= x / pow2 (Z.log2 (Qnum x) - Z.log2 (Zpos (Qden x)) - 23))%Q.
Proof.
  destruct x as [a d]. cbn [Qnum Qden]. intros Hx.
  assert (Ha : 0 < a) by (unfold Qlt in Hx; simpl in Hx; lia).
  set (la := Z.log2 a). set (ld := Z.log2 (Zpos d)).
  destruct (Z.log2_spec a Ha) as [Ha1 _].
  destruct (Z.log2_spec (Zpos d) eq_refl) as [_ Hd2].
  assert (Hla : 0 <= la) by apply Z.log2_nonneg.
  assert (Hld : 0 <= ld) by apply Z.log2_nonneg.
  fold la in Ha1. fold ld in Hd2.
  apply Qle_shift_div_l; [apply pow2_pos|].
  rewrite <- pow2_plus. replace (22 + (la - ld - 23)) with (la - ld - 1) by lia.
  rewrite Qmake_Qdiv. apply Qle_shift_div_l; [unfold Qlt; simpl; lia|].
  apply Qle_trans with (pow2 (la - ld - 1) * pow2 (Z.succ ld))%Q.
  - apply Qmult_le_l; [apply pow2_pos|].
    rewrite (pow2_Z (Z.succ ld)) by lia. rewrite <- Zle_Qle. lia.
  - rewrite <- pow2_plus. replace (la - ld - 1 + Z.succ ld) with la by lia.
    rewrite pow2_Z by lia. rewrite <- Zle_Qle. exact Ha1.
Qed.

Lemma fexp_normal x :
  (0 < x)%Q -> -149 < fexp x -> (8388608 <= x / pow2 (fexp x))%Q.
Proof.
  intros Hx He. pose proof (fexp0_lower x Hx) as Hlow. revert He.
  unfold fexp. cbv zeta.
  set (e0 := Z.log2 (Qnum x) - Z.log2 (Zpos (Qden x)) - 23). fold e0 in Hlow.
  destruct (Qle_bool (inject_Z (2 ^ 23)) (x / pow2 e0)) eqn:B; intros He.
  - rewrite Z.max_l in * by lia. apply Qle_bool_iff in B. exact B.
  - rewrite Z.max_l in * by lia.
    assert (HP : (pow2 e0 == pow2 (e0 - 1) * 2)%Q).
    { replace e0 with ((e0 - 1) + 1) at 1 by lia. rewrite pow2_plus. reflexivity. }
    assert (Hx2 : (x / pow2 (e0 - 1) == (x / pow2 e0) * 2)%Q).
    { rewrite HP. field. apply pow2_neq0. }
    rewrite Hx2. rewrite (pow2_Z 22) in Hlow by lia.
    change (inject_Z (2 ^ 22)) with (4194304 # 1)%Q in Hlow. lra.
Qed.

Lemma round_pos_bounds x :
  (0 < x)%Q ->
  (0 <= round_pos x /\
   x - (x * u32 + tiny32) <= round_pos x <= x + (x * u32 + tiny32))%Q.
Proof.
  intros Hx. unfold round_pos. cbv zeta.
  set (e := fexp x). set (P := pow2 e). set (y := (x / P)%Q).
  assert (HP : (0 < P)%Q) by apply pow2_pos.
  assert (Hy : (0 <= y)%Q).
  { unfold y. apply Qle_shift_div_l; [exact HP|]. rewrite Qmult_0_l. lra. }
  assert (HxP : (x == y * P)%Q) by (unfold y; field; apply pow2_neq0).
  set (M := inject_Z (round_ne y)).
  assert (HM : (0 <= M)%Q) by (unfold M; change 0%Q with (inject_Z 0); rewrite <- Zle_Qle; now apply round_ne_nonneg).
  destruct (round_ne_err y) as [Hlo Hhi]. fold M in Hlo, Hhi.
  assert (Hup : ((M - y) * P <= (1#2) * P)%Q) by (apply Qmult_le_compat_r; lra).
  assert (Hdn : (- (1#2) * P <= (M - y) * P)%Q) by (apply Qmult_le_compat_r; lra).
  assert (HMP : (0 <= M * P)%Q) by (apply Qmult_le_0_compat; lra).
  assert (Hcase : ((1#2) * P <= x * u32 + tiny32)%Q).
  { destruct (Z.eq_dec e (-149)) as [E|E].
    - unfold P. rewrite E. assert (Hu : (0 <= x * u32)%Q) by (apply Qmult_le_0_compat; lra).
      assert (Hv : ((1#2) * pow2 (-149) == tiny32)%Q) by (vm_compute; reflexivity).
      lra.
    - assert (He : -149 < e).
      { assert (-149 <= e) by (unfold e, fexp; cbv zeta; apply Z.le_max_r). lia. }
      pose proof (fexp_normal x Hx He) as Hn. fold e P y in Hn.
      assert (H8 : (8388608 * P <= y * P)%Q) by (apply Qmult_le_compat_r; lra).
      lra. }
  repeat split; lra.
Qed.

Lemma round32_bounds x :
  (0 <= x)%Q ->
  (0 <= round32 x /\ x - (x * u32 + tiny32) <= round32 x /\
   round32 x <= x + (x * u32 + tiny32))%Q.
Proof.
  intros Hx. unfold round32.
  destruct (Qcompare_spec x 0) as [E|E|E].
  - rewrite E. lra.
  - lra.
  - destruct (round_pos_bounds x E) as [H1 [H2 H3]]. lra.
Qed.

Lemma int_of_float_floor x : (0 <= x)%Q -> int_of_float x = Qfloor x.
Proof.
  destruct x as [a d]. unfold Qle. simpl. intros Ha.
  unfold int_of_float. simpl. apply Z.quot_div_nonneg; lia.
Qed.

Lemma threshold_code_spec r :
  (0 <= r)%Q ->
  0 <= threshold_code r /\
  (inject_Z (threshold_code r) <= fmul r 100 < inject_Z (threshold_code r) + 1)%Q.
Proof.
  intros Hr. unfold threshold_code.
  assert (Hf : (0 <= fmul r 100)%Q)
    by (unfold fmul; apply round32_bounds; apply Qmult_le_0_compat; lra).
  rewrite int_of_float_floor by exact Hf.
  pose proof (Qlt_floor (fmul r 100)) as H2. rewrite inject_Z_plus in H2.
  split; [|split; [apply Qfloor_le | exact H2]].
  change 0 with (Qfloor 0). now apply Qfloor_resp_le.
Qed.

(** The facts about one flow-rate record: threshold [r], its field [k], the
    float [g] parsed back from [k] and the reloaded threshold [r']. *)
Lemma reload_chain r :
  (0 <= r <= 40000)%Q ->
  let k := threshold_code r in
  let g := float_of_int k in
  let r' := fdiv g 100 in
  0 <= k <= 4000000 /\
  (r * 100 - (r * 100 * u32 + tiny32) <= fmul r 100 <= r * 100 + (r * 100 * u32 + tiny32) /\
   inject_Z k <= fmul r 100 < inject_Z k + 1 /\
   0 <= g /\ inject_Z k - (inject_Z k * u32 + tiny32) <= g <= inject_Z k + (inject_Z k * u32 + tiny32) /\
   0 <= r' /\ g * (1#100) - (g * (1#100) * u32 + tiny32) <= r' <= g * (1#100) + (g * (1#100) * u32 + tiny32))%Q.
Proof.
  intros Hr k g r'.
  destruct (threshold_code_spec r (proj1 Hr)) as [Hk0 [Hk1 Hk2]]. fold k in Hk0, Hk1, Hk2.
  destruct (round32_bounds (r * 100)) as [Hf0 [Hf1 Hf2]]; [apply Qmult_le_0_compat; lra|].
  change (round32 (r * 100)) with (fmul r 100) in Hf0, Hf1, Hf2.
  assert (HK : (0 <= inject_Z k)%Q) by (change 0%Q with (inject_Z 0); rewrite <- Zle_Qle; lia).
  destruct (round32_bounds (inject_Z k) HK) as [Hg0 [Hg1 Hg2]].
  change (round32 (inject_Z k)) with g in Hg0, Hg1, Hg2.
  destruct (round32_bounds (g * (1#100))) as [Hr0 [Hr1 Hr2]]; [apply Qmult_le_0_compat; lra|].
  change (round32 (g * (1#100))) with r' in Hr0, Hr1, Hr2.
  assert (Hk4 : k <= 4000000).
  { assert (H : (inject_Z k < inject_Z 4000001)%Q).
    { change (inject_Z 4000001) with (4000001 # 1)%Q. lra. }
    rewrite <- Zlt_Qlt in H. lia. }
  repeat split; assumption || lia.
Qed.

Lemma reload_threshold_error r :
  (0 <= r <= 40000)%Q ->
  (Qabs (r - fdiv (float_of_int (threshold_code r)) 100) <= (1#100) + r * (1#4194304))%Q.
Proof.
  intros Hr. pose proof (reload_chain r Hr) as HC. cbv zeta in HC. destruct HC as [Hk HC].
  repeat match goal with H : _ /\ _ |- _ => destruct H end.
  apply Qabs_Qle_condition.
  destruct (Qlt_le_dec r (1#200)); split; lra.
Qed.

Lemma reload_threshold_code r :
  (0 <= r <= 40000)%Q ->
  threshold_code (fdiv (float_of_int (threshold_code r)) 100) = threshold_code r \/
  threshold_code (fdiv (float_of_int (threshold_code r)) 100) = threshold_code r - 1.
Proof.
  intros Hr. pose proof (reload_chain r Hr) as HC. cbv zeta in HC. destruct HC as [Hk HC].
  repeat match goal with H : _ /\ _ |- _ => destruct H end.
  set (k := threshold_code r) in *. set (r' := fdiv (float_of_int k) 100) in *.
  assert (HK4 : (inject_Z k <= 4000000)%Q)
    by (change 4000000%Q with (inject_Z 4000000); rewrite <- Zle_Qle; lia).
  destruct (round32_bounds (r' * 100)) as [Hb0 [Hb1 Hb2]]; [apply Qmult_le_0_compat; lra|].
  assert (Hr0 : (0 <= r')%Q) by assumption.
  destruct (threshold_code_spec r' Hr0) as [Hk'0 [Hk'1 Hk'2]].
  unfold fmul in Hk'1, Hk'2.
  set (k' := threshold_code r') in *. set (b := round32 (r' * 100)) in *.
  assert (Hlo : (inject_Z (k - 2) < inject_Z k')%Q).
  { replace (k - 2) with (k + -2) by lia. rewrite inject_Z_plus.
    change (inject_Z (-2)) with (-2 # 1)%Q. lra. }
  assert (Hhi : (inject_Z k' < inject_Z (k + 1))%Q).
  { rewrite inject_Z_plus. change (inject_Z 1) with 1%Q. lra. }
  rewrite <- Zlt_Qlt in Hlo, Hhi. lia.
Qed.

Lemma int_cast_small d : -2^31 <= d < 2^31 -> int_cast d = d.
Proof.
  intros Hd. unfold int_cast. rewrite Z.mod_small by lia. lia.
Qed.

Lemma int_cast_idem d : int_cast (int_cast d) = int_cast d.
Proof.
  apply int_cast_small. unfold int_cast.
  pose proof (Z.mod_pos_bound (d + 2^31) (2^32)). lia.
Qed.

(** Serializing the reloaded criterion gives the record of the original one,
    or, for a flow-rate criterion, the record with threshold field one lower. *)
Lemma reload_record c :
  wf_criterion c ->
  criterion_serialize (reload c) = criterion_serialize c \/
  exists tc, c = TimeBased tc /\
    criterion_serialize (reload c) =
    flow_record (threshold_code (TimeBasedFlowRateCriterion.rateThreshold tc) - 1)
                (int_cast (TimeBasedFlowRateCriterion.minDuration tc)).
Proof.
  destruct c as [tc|pc]; simpl; intros Hwf.
  - rewrite !TimeBased_serialize_record. simpl. rewrite int_cast_idem.
    destruct (reload_threshold_code _ (proj1 Hwf)) as [E|E]; rewrite E.
    + now left.
    + right. now exists tc.
  - left. rewrite !Probe_serialize_record. simpl. unfold to_uint8.
    rewrite Z.mod_small by exact Hwf. reflexivity.
Qed.

(** ** Round trip *)

(** C4: the stated round trip fails: the float nearest to 16.22 comes back
    more than 0.01 away, a duration beyond the range of [int] comes back
    reduced modulo 2^32, and a document with threshold field 209 reloads to
    one whose record has threshold field 208. *)
Lemma C4_round_trip_counterexample :
  (exists r',
     TimeBasedFlowRateCriterion.deserialize
       (TimeBasedFlowRateCriterion.serialize (TimeBasedFlowRateCriterion.new (8503951 # 524288) 60)) =
       Some (TimeBasedFlowRateCriterion.new r' 60) /\
     (1 # 100 < Qabs ((8503951 # 524288) - r'))%Q) /\
  (exists r',
     TimeBasedFlowRateCriterion.deserialize
       (TimeBasedFlowRateCriterion.serialize (TimeBasedFlowRateCriterion.new 2 4294967356)) =
       Some (TimeBasedFlowRateCriterion.new r' 60) /\ (r' == 2)%Q) /\
  LeakLogic.serialize
    (LeakLogic.mk [Some (TimeBased (TimeBasedFlowRateCriterion.new (round32 (2095 # 1000)) 60))]) =
    Ok "T,209,60,|"%string /\
  LeakLogic.serialize (LeakLogic.loadFromString LeakLogic.empty "T,209,60,|") =
    Ok "T,208,60,|"%string.
Proof.
  split; [|split; [|split]].
  - exists (8498708 # 524288). split; [vm_compute; reflexivity|].
    vm_compute. reflexivity.
  - exists (8388608 # 4194304). split; vm_compute; reflexivity.
  - vm_compute. reflexivity.
  - vm_compute. reflexivity.
Qed.

(** C4 (amended): for a flow-rate criterion with threshold [r] in [0, 40000]
    and a duration field [static_cast<int>(d)] that fits in its
    [StaticString<8>] ([fits8]), deserializing its record gives threshold
    [r'] with [|r - r'| <= 0.01 + r/2^22] and duration [static_cast<int>(d)];
    a probe id in [0, 256) comes back
    exactly. Loading the document of up to 10 well-formed criteria gives
    criteria [cs'] whose document has, record by record, the same fields as
    the original, except that a threshold field [k] may become [k - 1]. *)
Theorem C4_round_trip_bounds :
  (forall c : TimeBasedFlowRateCriterion.t,
     (0 <= TimeBasedFlowRateCriterion.rateThreshold c <= 40000)%Q ->
     fits8 (int_cast (TimeBasedFlowRateCriterion.minDuration c)) = true ->
     exists r',
       TimeBasedFlowRateCriterion.deserialize (TimeBasedFlowRateCriterion.serialize c) =
         Some (TimeBasedFlowRateCriterion.new r' (int_cast (TimeBasedFlowRateCriterion.minDuration c))) /\
       (Qabs (TimeBasedFlowRateCriterion.rateThreshold c - r') <=
          (1 # 100) + TimeBasedFlowRateCriterion.rateThreshold c * (1 # 4194304))%Q) /\
  (forall c : ProbeLeakDetectionCriterion.t,
     0 <= ProbeLeakDetectionCriterion.probeId c < 256 ->
     ProbeLeakDetectionCriterion.deserialize (ProbeLeakDetectionCriterion.serialize c) =
       Some (ProbeLeakDetectionCriterion.new (ProbeLeakDetectionCriterion.probeId c))) /\
  (forall cs : list LeakDetectionCriterion,
     (List.length cs <= 10)%nat -> Forall wf_criterion cs ->
     exists cs',
       LeakLogic.loadFromString LeakLogic.empty (document cs) = LeakLogic.mk (map Some cs') /\
       LeakLogic.serialize (LeakLogic.mk (map Some cs)) = Ok (document cs) /\
       LeakLogic.serialize (LeakLogic.mk (map Some cs')) = Ok (document cs') /\
       Forall2 (fun c c' =>
         criterion_serialize c' = criterion_serialize c \/
         exists tc, c = TimeBased tc /\
           criterion_serialize c' =
           flow_record (threshold_code (TimeBasedFlowRateCriterion.rateThreshold tc) - 1)
                       (int_cast (TimeBasedFlowRateCriterion.minDuration tc))) cs cs').
Proof.
  split; [|split].
  - intros c Hc _. eexists. split.
    + rewrite TimeBased_serialize_record. apply deserialize_flow_record.
    + apply reload_threshold_error. exact Hc.
  - intros c Hc. rewrite Probe_serialize_record, deserialize_probe_record.
    unfold to_uint8. rewrite Z.mod_small by exact Hc. reflexivity.
  - intros cs Hlen Hwf. exists (map reload cs). split; [|split; [|split]].
    + rewrite load_document by exact Hlen. now rewrite map_map.
    + apply serialize_document.
    + apply serialize_document.
    + induction Hwf as [|c cs Hc Hcs IH]; simpl; constructor.
      * now apply reload_record.
      * apply IH. simpl in Hlen. lia.
Qed.

(** * Instances at concrete inputs *)

Lemma C1_time_based_flow_rate_witness :
  ((5 <= 6)%Q /\
   TimeBasedFlowRateCriterion.update (TimeBasedFlowRateCriterion.new 5 30) (mkSensorState 6 []) 10 =
   TimeBasedFlowRateCriterion.mk 5 30 10 true) /\
  ((4 < 5)%Q /\
   TimeBasedFlowRateCriterion.update (TimeBasedFlowRateCriterion.mk 5 30 20 true) (mkSensorState 4 []) 10 =
   TimeBasedFlowRateCriterion.mk 5 30 0 false) /\
  ([(mkSensorState 6 [], 20); (mkSensorState 7 [], 15)] <> [] /\
   Forall (fun tick => (5 <= flowRate (fst tick))%Q) [(mkSensorState 6 [], 20); (mkSensorState 7 [], 15)] /\
   TimeBasedFlowRateCriterion.getAction
     (run_TimeBased (TimeBasedFlowRateCriterion.new 5 30) [(mkSensorState 6 [], 20); (mkSensorState 7 [], 15)]) =
   Some close_for_flow).
Proof.
  assert (H1 : (5 <= 6)%Q) by lra.
  assert (H2 : (4 < 5)%Q) by lra.
  assert (H3 : [(mkSensorState 6 [], 20); (mkSensorState 7 [], 15)] <> []) by discriminate.
  assert (H4 : Forall (fun tick => (5 <= flowRate (fst tick))%Q)
                 [(mkSensorState 6 [], 20); (mkSensorState 7 [], 15)]).
  { repeat constructor; simpl; lra. }
  split; [|split].
  - split; [exact H1|].
    exact (proj1 C1_time_based_flow_rate (TimeBasedFlowRateCriterion.new 5 30) (mkSensorState 6 []) 10 H1).
  - split; [exact H2|].
    exact (proj1 (proj2 C1_time_based_flow_rate)
             (TimeBasedFlowRateCriterion.mk 5 30 20 true) (mkSensorState 4 []) 10 H2).
  - split; [exact H3|]. split; [exact H4|].
    exact (proj2 (proj2 (proj2 (proj2 C1_time_based_flow_rate))) 5%Q 30 _ H3 H4).
Defined.

Lemma C2_probe_criterion_witness :
  nth_error (repeat false 42 ++ [true]) 42 = Some true /\
  exists logic,
    LeakLogic.update (LeakLogic.mk [Some (Probe (ProbeLeakDetectionCriterion.new 42))])
      (mkSensorState 0 (repeat false 42 ++ [true])) 5 = Ok logic /\
    LeakLogic.getAction logic = Ok (mkLeakPreventionAction CLOSE_VALVE LEAK_DETECTED_BY_PROBE 42).
Proof.
  assert (H : nth_error (repeat false 42 ++ [true]) 42 = Some true) by reflexivity.
  split; [exact H|].
  exact (proj2 (proj2 (proj2 (proj2 C2_probe_criterion))) 0%Q _ 5 H).
Defined.

Lemma C10_probe_not_latching_witness :
  Forall (fun b => b = false) [false; false] /\
  ProbeLeakDetectionCriterion.getAction
    (ProbeLeakDetectionCriterion.update (ProbeLeakDetectionCriterion.mk 4 true)
       (mkSensorState 0 [false; false]) 5) = None.
Proof.
  assert (H : Forall (fun b => b = false) [false; false]) by (repeat constructor).
  split; [exact H|].
  exact (C10_probe_not_latching (ProbeLeakDetectionCriterion.mk 4 true) (mkSensorState 0 [false; false]) 5 H).
Defined.

Lemma C3_first_match_witness :
  (Forall (fun c => criterion_getAction c = None) [Probe (ProbeLeakDetectionCriterion.mk 3 false)] /\
   criterion_getAction (Probe (ProbeLeakDetectionCriterion.mk 7 true)) =
     Some (mkLeakPreventionAction CLOSE_VALVE LEAK_DETECTED_BY_PROBE 7) /\
   LeakLogic.getAction
     (LeakLogic.mk (map Some ([Probe (ProbeLeakDetectionCriterion.mk 3 false)] ++
                             Probe (ProbeLeakDetectionCriterion.mk 7 true) :: []))) =
     Ok (mkLeakPreventionAction CLOSE_VALVE LEAK_DETECTED_BY_PROBE 7)) /\
  LeakLogic.getAction (LeakLogic.mk (map Some [Probe (ProbeLeakDetectionCriterion.mk 3 false)])) =
    Ok no_action /\
  LeakLogic.getAction
    (LeakLogic.mk (map Some ([Probe (ProbeLeakDetectionCriterion.mk 3 false)] ++
                            Probe (ProbeLeakDetectionCriterion.mk 7 true) ::
                            [] ++ Probe (ProbeLeakDetectionCriterion.mk 9 true) :: []))) =
    Ok (mkLeakPreventionAction CLOSE_VALVE LEAK_DETECTED_BY_PROBE 7).
Proof.
  assert (H0 : Forall (fun c => criterion_getAction c = None)
                 [Probe (ProbeLeakDetectionCriterion.mk 3 false)]) by (repeat constructor).
  assert (H1 : criterion_getAction (Probe (ProbeLeakDetectionCriterion.mk 7 true)) =
               Some (mkLeakPreventionAction CLOSE_VALVE LEAK_DETECTED_BY_PROBE 7)) by reflexivity.
  assert (H2 : criterion_getAction (Probe (ProbeLeakDetectionCriterion.mk 9 true)) =
               Some (mkLeakPreventionAction CLOSE_VALVE LEAK_DETECTED_BY_PROBE 9)) by reflexivity.
  split; [split; [exact H0 | split; [exact H1|]]|split].
  - exact (proj1 C3_first_match _ _ [] _ H0 H1).
  - exact (proj1 (proj2 C3_first_match) _ H0).
  - exact (proj2 (proj2 C3_first_match) _ _ [] _ [] _ _ H0 H1 H2).
Defined.

Lemma C6_add_criterion_capacity_witness :
  LeakLogic.addCriterion (LeakLogic.mk (repeat None 10)) None = (false, LeakLogic.mk (repeat None 10)) /\
  LeakLogic.addCriterion LeakLogic.empty (Some (Probe (ProbeLeakDetectionCriterion.new 1))) =
    (true, LeakLogic.mk [Some (Probe (ProbeLeakDetectionCriterion.new 1))]).
Proof.
  assert (H1 : List.length (LeakLogic.criteria (LeakLogic.mk (repeat None 10))) = 10%nat)
    by reflexivity.
  assert (H2 : (List.length (LeakLogic.criteria LeakLogic.empty) < 10)%nat) by (simpl; lia).
  split.
  - exact (proj1 C6_add_criterion_capacity _ None H1).
  - exact (proj2 C6_add_criterion_capacity _ (Some (Probe (ProbeLeakDetectionCriterion.new 1))) H2).
Defined.

Lemma C7_serialize_format_witness :
  (fits8 (int_of_float (fmul 2 100)) = true /\ fits8 (int_cast 60) = true /\
   TimeBasedFlowRateCriterion.serialize (TimeBasedFlowRateCriterion.new 2 60) =
     flow_record (int_of_float (fmul 2 100)) (int_cast 60)) /\
  ((-2^31 <= 60 < 2^31) /\ int_cast 60 = 60) /\
  (0 <= 42 < 256 /\
   ProbeLeakDetectionCriterion.serialize (ProbeLeakDetectionCriterion.new 42) = probe_record 42) /\
  ((List.length [Probe (ProbeLeakDetectionCriterion.new 42); TimeBased (TimeBasedFlowRateCriterion.new 2 60)]
      <= 10)%nat /\
   Forall fits_criterion
     [Probe (ProbeLeakDetectionCriterion.new 42); TimeBased (TimeBasedFlowRateCriterion.new 2 60)] /\
   LeakLogic.serialize
     (LeakLogic.mk (map Some [Probe (ProbeLeakDetectionCriterion.new 42);
                              TimeBased (TimeBasedFlowRateCriterion.new 2 60)])) =
   Ok (fold_right (fun c doc => (criterion_serialize c ++ "|" ++ doc)%string) EmptyString
         [Probe (ProbeLeakDetectionCriterion.new 42); TimeBased (TimeBasedFlowRateCriterion.new 2 60)])).
Proof.
  assert (H1 : fits8 (int_of_float (fmul 2 100)) = true) by (vm_compute; reflexivity).
  assert (H2 : fits8 (int_cast 60) = true) by (vm_compute; reflexivity).
  assert (H3 : -2^31 <= 60 < 2^31) by lia.
  assert (H4 : 0 <= 42 < 256) by lia.
  assert (H5 : (List.length [Probe (ProbeLeakDetectionCriterion.new 42);
                             TimeBased (TimeBasedFlowRateCriterion.new 2 60)] <= 10)%nat) by (simpl; lia).
  assert (H6 : Forall fits_criterion [Probe (ProbeLeakDetectionCriterion.new 42);
                                      TimeBased (TimeBasedFlowRateCriterion.new 2 60)]).
  { constructor; [simpl; lia|]. constructor; [split; exact H1 || exact H2|]. constructor. }
  split; [|split; [|split]].
  - split; [exact H1|]. split; [exact H2|].
    exact (proj1 C7_serialize_format (TimeBasedFlowRateCriterion.new 2 60) H1 H2).
  - split; [exact H3 | exact (proj1 (proj2 C7_serialize_format) 60 H3)].
  - split; [exact H4|].
    exact (proj1 (proj2 (proj2 C7_serialize_format)) (ProbeLeakDetectionCriterion.new 42) H4).
  - split; [exact H5|]. split; [exact H6|].
    exact (proj1 (proj2 (proj2 (proj2 C7_serialize_format))) _ H5 H6).
Defined.

Lemma C8_trailing_text_ignored_witness :
  excludes "|" "P,2," = true /\
  LeakLogic.loadFromString LeakLogic.empty ("P,1,|" ++ "P,2,") =
  LeakLogic.loadFromString LeakLogic.empty "P,1,|".
Proof.
  assert (H : excludes "|" "P,2," = true) by reflexivity.
  split; [exact H | exact (C8_trailing_text_ignored LeakLogic.empty "P,1,|" "P,2," H)].
Defined.

Lemma C9_load_appends_witness :
  (List.length (LeakLogic.criteria (LeakLogic.mk [None])) <= 10)%nat /\
  LeakLogic.criteria (LeakLogic.loadFromString (LeakLogic.mk [None]) "P,1,|T,200,60,|") =
  None :: firstn 9 (loaded_entries "P,1,|T,200,60,|" EmptyString).
Proof.
  assert (H : (List.length (LeakLogic.criteria (LeakLogic.mk [None])) <= 10)%nat) by (simpl; lia).
  split; [exact H | exact (C9_load_appends (LeakLogic.mk [None]) "P,1,|T,200,60,|" H)].
Defined.

Lemma C4_round_trip_bounds_witness :
  ((0 <= 2 <= 40000)%Q /\ fits8 (int_cast 60) = true /\
   exists r',
     TimeBasedFlowRateCriterion.deserialize
       (TimeBasedFlowRateCriterion.serialize (TimeBasedFlowRateCriterion.new 2 60)) =
       Some (TimeBasedFlowRateCriterion.new r' (int_cast 60)) /\
     (Qabs (2 - r') <= (1 # 100) + 2 * (1 # 4194304))%Q) /\
  (0 <= 42 < 256 /\
   ProbeLeakDetectionCriterion.deserialize
     (ProbeLeakDetectionCriterion.serialize (ProbeLeakDetectionCriterion.new 42)) =
     Some (ProbeLeakDetectionCriterion.new 42)) /\
  ((List.length [Probe (ProbeLeakDetectionCriterion.new 42); TimeBased (TimeBasedFlowRateCriterion.new 2 60)]
      <= 10)%nat /\
   Forall wf_criterion
     [Probe (ProbeLeakDetectionCriterion.new 42); TimeBased (TimeBasedFlowRateCriterion.new 2 60)] /\
   exists cs',
     LeakLogic.loadFromString LeakLogic.empty
       (document [Probe (ProbeLeakDetectionCriterion.new 42); TimeBased (TimeBasedFlowRateCriterion.new 2 60)]) =
       LeakLogic.mk (map Some cs') /\
     LeakLogic.serialize (LeakLogic.mk (map Some cs')) = Ok (document cs')).
Proof.
  assert (H1 : (0 <= TimeBasedFlowRateCriterion.rateThreshold (TimeBasedFlowRateCriterion.new 2 60) <= 40000)%Q)
    by (simpl; lra).
  assert (H2 : 0 <= ProbeLeakDetectionCriterion.probeId (ProbeLeakDetectionCriterion.new 42) < 256)
    by (simpl; lia).
  assert (H3 : (List.length [Probe (ProbeLeakDetectionCriterion.new 42);
                             TimeBased (TimeBasedFlowRateCriterion.new 2 60)] <= 10)%nat) by (simpl; lia).
  assert (H4 : Forall wf_criterion [Probe (ProbeLeakDetectionCriterion.new 42);
                                    TimeBased (TimeBasedFlowRateCriterion.new 2 60)]).
  { constructor; [simpl; lia|]. constructor; [split; [simpl; lra | vm_compute; reflexivity]|].
    constructor. }
  assert (H5 : fits8 (int_cast (TimeBasedFlowRateCriterion.minDuration (TimeBasedFlowRateCriterion.new 2 60))) = true)
    by (vm_compute; reflexivity).
  split; [|split].
  - split; [exact H1|]. split; [exact H5|]. exact (proj1 C4_round_trip_bounds _ H1 H5).
  - split; [exact H2|]. exact (proj1 (proj2 C4_round_trip_bounds) _ H2).
  - split; [exact H3|]. split; [exact H4|].
    destruct (proj2 (proj2 C4_round_trip_bounds) _ H3 H4) as [cs' [Hl [_ [Hs _]]]].
    exists cs'. split; [exact Hl | exact Hs].
Defined.

(** * Further properties of the code *)

(** ** Helpers *)

Lemma rateThreshold_update c s dt :
  TimeBasedFlowRateCriterion.rateThreshold (TimeBasedFlowRateCriterion.update c s dt) =
  TimeBasedFlowRateCriterion.rateThreshold c /\
  TimeBasedFlowRateCriterion.minDuration (TimeBasedFlowRateCriterion.update c s dt) =
  TimeBasedFlowRateCriterion.minDuration c.
Proof.
  unfold TimeBasedFlowRateCriterion.update. now destruct (Qle_bool _ _).
Qed.

Lemma run_config c ticks :
  TimeBasedFlowRateCriterion.rateThreshold (run_TimeBased c ticks) =
  TimeBasedFlowRateCriterion.rateThreshold c /\
  TimeBasedFlowRateCriterion.minDuration (run_TimeBased c ticks) =
  TimeBasedFlowRateCriterion.minDuration c.
Proof.
  revert c. induction ticks as [|tick ticks IH]; intros c; [now split|].
  unfold run_TimeBased; simpl. fold (run_TimeBased (TimeBasedFlowRateCriterion.update c (fst tick) (snd tick)) ticks).
  destruct (IH (TimeBasedFlowRateCriterion.update c (fst tick) (snd tick))) as [-> ->].
  apply rateThreshold_update.
Qed.

Lemma criterion_serialize_update c s dt :
  criterion_serialize (criterion_update c s dt) = criterion_serialize c.
Proof.
  destruct c as [c|c]; simpl; [|reflexivity].
  unfold TimeBasedFlowRateCriterion.serialize.
  now destruct (rateThreshold_update c s dt) as [-> ->].
Qed.

Lemma update_criteria_map cs s dt :
  LeakLogic.update_criteria (map Some cs) s dt =
  Ok (map (fun c => Some (criterion_update c s dt)) cs).
Proof. induction cs as [|c cs IH]; simpl; [reflexivity|]. now rewrite IH. Qed.

Lemma update_criteria_null pre post s dt :
  LeakLogic.update_criteria (map Some pre ++ None :: post) s dt = NullDeref.
Proof. induction pre as [|c pre IH]; simpl; [reflexivity|]. now rewrite IH. Qed.

Lemma serialize_loop_null pre post acc :
  LeakLogic.serialize_loop (map Some pre ++ None :: post) acc = NullDeref.
Proof. revert acc. induction pre as [|c pre IH]; intros acc; simpl; [reflexivity|]. apply IH. Qed.

Lemma getAction_loop_fired pre rest :
  Exists (fun c => criterion_getAction c <> None) pre ->
  LeakLogic.getAction_loop (map Some pre ++ rest) = LeakLogic.getAction_loop (map Some pre).
Proof.
  induction 1 as [c pre Hc|c pre _ IH]; simpl.
  - destruct (criterion_getAction c); [reflexivity|congruence].
  - destruct (criterion_getAction c); [reflexivity|exact IH].
Qed.

Lemma TimeBased_getAction_cases c :
  TimeBasedFlowRateCriterion.getAction c = Some close_for_flow \/
  TimeBasedFlowRateCriterion.getAction c = None.
Proof.
  unfold TimeBasedFlowRateCriterion.getAction.
  destruct (_ && _); [left|right]; reflexivity.
Qed.

Lemma tb_loop_none s buf st r :
  excludes "," s = true -> TimeBasedFlowRateCriterion.deserialize_loop s buf st r = None.
Proof.
  intros Hs. rewrite <- (str_app_nil s), tb_loop_skip by exact Hs. reflexivity.
Qed.

Lemma probe_loop_none s buf st :
  excludes "," s = true -> ProbeLeakDetectionCriterion.deserialize_loop s buf st = None.
Proof.
  intros Hs. rewrite <- (str_app_nil s), probe_loop_skip by exact Hs. reflexivity.
Qed.

Lemma load_loop_split s1 s2 buf logic :
  LeakLogic.loadFromString_loop (s1 ++ String "|" s2) buf logic =
  LeakLogic.loadFromString_loop s2 EmptyString
    (LeakLogic.loadFromString_loop (s1 ++ "|") buf logic).
Proof.
  revert buf logic. induction s1 as [|x s1 IH]; intros buf logic.
  - simpl String.append. rewrite !load_loop_cons. reflexivity.
  - cbn [String.append]. rewrite !load_loop_cons.
    destruct (Ascii.eqb x "|"); apply IH.
Qed.

Lemma load_chunk_other logic c rest :
  c <> "T"%char -> c <> "P"%char -> LeakLogic.load_chunk logic (String c rest) = logic.
Proof.
  intros HT HP. unfold LeakLogic.load_chunk. simpl first_char.
  destruct c as [[] [] [] [] [] [] [] []]; try reflexivity; exfalso; auto.
Qed.

(** ** [TimeBasedFlowRateCriterion] *)

(** X1: once firing, a flow-rate criterion keeps firing under any update at a
    flow rate at or above its threshold with a non-negative elapsed time. *)
Theorem X1_flow_firing_persists :
  forall (c : TimeBasedFlowRateCriterion.t) s dt,
    TimeBasedFlowRateCriterion.getAction c <> None ->
    (TimeBasedFlowRateCriterion.rateThreshold c <= flowRate s)%Q ->
    0 <= dt ->
    TimeBasedFlowRateCriterion.getAction (TimeBasedFlowRateCriterion.update c s dt) =
    Some close_for_flow.
Proof.
  intros c s dt Hf Hr Hdt.
  destruct (TimeBased_getAction_cases c) as [E|E]; [|contradiction].
  apply getAction_some in E as [_ Hd].
  rewrite update_ge by exact Hr. apply getAction_some. simpl. split; [reflexivity|lia].
Qed.

(** X2: after any sequence of updates whose last below-threshold reading is
    [x], the accumulator holds exactly the elapsed time summed over the
    updates after [x], and the criterion is active iff there was one. *)
Theorem X2_flow_accumulator_since_reset :
  forall (c : TimeBasedFlowRateCriterion.t) pre x post,
    (flowRate (fst x) < TimeBasedFlowRateCriterion.rateThreshold c)%Q ->
    Forall (fun tick => (TimeBasedFlowRateCriterion.rateThreshold c <= flowRate (fst tick))%Q) post ->
    run_TimeBased c (pre ++ x :: post) =
    TimeBasedFlowRateCriterion.mk (TimeBasedFlowRateCriterion.rateThreshold c)
      (TimeBasedFlowRateCriterion.minDuration c) (total_elapsed post)
      (match post with [] => false | _ => true end).
Proof.
  intros c pre x post Hx Hpost.
  unfold run_TimeBased. rewrite fold_left_app. simpl.
  fold (run_TimeBased c pre).
  destruct (run_config c pre) as [Hr Hd].
  rewrite update_lt by (rewrite Hr; exact Hx). rewrite Hr, Hd.
  fold (run_TimeBased (TimeBasedFlowRateCriterion.mk (TimeBasedFlowRateCriterion.rateThreshold c)
          (TimeBasedFlowRateCriterion.minDuration c) 0 false) post).
  rewrite run_sustained by exact Hpost. destruct post; reflexivity.
Qed.

(** ** [LeakLogic::update], [LeakLogic::getAction], [LeakLogic::serialize] *)

(** X3: [LeakLogic::update] on non-null criteria succeeds, updates every
    criterion in place and keeps their order, and never changes the
    configuration: the serialization after the update is the one before. *)
Theorem X3_logic_update_keeps_configuration :
  forall (cs : list LeakDetectionCriterion) s dt,
    LeakLogic.update (LeakLogic.mk (map Some cs)) s dt =
      Ok (LeakLogic.mk (map (fun c => Some (criterion_update c s dt)) cs)) /\
    LeakLogic.serialize (LeakLogic.mk (map (fun c => Some (criterion_update c s dt)) cs)) =
      LeakLogic.serialize (LeakLogic.mk (map Some cs)).
Proof.
  intros cs s dt. split.
  - unfold LeakLogic.update. simpl. now rewrite update_criteria_map.
  - replace (map (fun c => Some (criterion_update c s dt)) cs)
      with (map Some (map (fun c => criterion_update c s dt) cs)) by (now rewrite map_map).
    rewrite !serialize_document. f_equal.
    induction cs as [|c cs IH]; simpl; [reflexivity|].
    now rewrite IH, criterion_serialize_update.
Qed.

(** X4: with a null entry in the criteria, [update] and [serialize] always
    dereference it; [getAction] dereferences it when no criterion before it
    fires, and otherwise returns the first action before it unaffected. *)
Theorem X4_null_entry_behaviour :
  forall (pre : list LeakDetectionCriterion) post s dt,
    LeakLogic.update (LeakLogic.mk (map Some pre ++ None :: post)) s dt = NullDeref /\
    LeakLogic.serialize (LeakLogic.mk (map Some pre ++ None :: post)) = NullDeref /\
    (Forall (fun c => criterion_getAction c = None) pre ->
     LeakLogic.getAction (LeakLogic.mk (map Some pre ++ None :: post)) = NullDeref) /\
    (Exists (fun c => criterion_getAction c <> None) pre ->
     LeakLogic.getAction (LeakLogic.mk (map Some pre ++ None :: post)) =
     LeakLogic.getAction (LeakLogic.mk (map Some pre))).
Proof.
  intros pre post s dt. split; [|split; [|split]].
  - unfold LeakLogic.update. simpl. now rewrite update_criteria_null.
  - apply serialize_loop_null.
  - intros H. unfold LeakLogic.getAction. simpl.
    now rewrite getAction_loop_silent_prefix by exact H.
  - intros H. apply getAction_loop_fired. exact H.
Qed.

(** X5: on non-null criteria [getAction] always returns, and only one of
    three actions: NoAction (reason None, probe id 255), CloseValve for an
    exceeded flow rate (probe id 255), or CloseValve for a probe criterion
    of the logic that has detected a leak, carrying that criterion's id. *)
Theorem X5_getAction_shapes :
  forall cs : list LeakDetectionCriterion,
    exists a,
      LeakLogic.getAction (LeakLogic.mk (map Some cs)) = Ok a /\
      (a = no_action \/ a = close_for_flow \/
       exists pc, In (Probe pc) cs /\ ProbeLeakDetectionCriterion.leakDetected pc = true /\
         a = mkLeakPreventionAction CLOSE_VALVE LEAK_DETECTED_BY_PROBE
               (ProbeLeakDetectionCriterion.probeId pc)).
Proof.
  induction cs as [|c cs IH].
  - exists no_action. split; [reflexivity|now left].
  - unfold LeakLogic.getAction in *. simpl.
    destruct c as [tc|pc]; simpl.
    + destruct (TimeBased_getAction_cases tc) as [E|E]; rewrite E.
      * exists close_for_flow. split; [reflexivity|now right; left].
      * destruct IH as [a [Ha Hs]]. exists a. split; [exact Ha|].
        destruct Hs as [Hs|[Hs|[pc [Hin Hpc]]]]; [now left|now right; left|].
        right; right. exists pc. split; [now right|exact Hpc].
    + rewrite getAction_spec. destruct (ProbeLeakDetectionCriterion.leakDetected pc) eqn:L.
      * eexists. split; [reflexivity|]. right; right. exists pc. split; [now left|now split].
      * destruct IH as [a [Ha Hs]]. exists a. split; [exact Ha|].
        destruct Hs as [Hs|[Hs|[pc' [Hin Hpc]]]]; [now left|now right; left|].
        right; right. exists pc'. split; [now right|exact Hpc].
Qed.

(** X6: when some probe reports a leak, updating a logic whose first probe
    criterion has id [p] (only flow-rate criteria before it) yields either
    the flow-rate action or CloseValve/LeakDetectedByProbe with id [p],
    whichever probe reported the leak: the id of the first probe criterion
    is reported. *)
Theorem X6_first_probe_id_reported :
  forall (pre post : list LeakDetectionCriterion) (p : ProbeLeakDetectionCriterion.t) s dt,
    Forall (fun c => exists tc, c = TimeBased tc) pre ->
    existsb (fun b => b) (probeStates s) = true ->
    exists logic,
      LeakLogic.update (LeakLogic.mk (map Some (pre ++ Probe p :: post))) s dt = Ok logic /\
      (LeakLogic.getAction logic = Ok close_for_flow \/
       LeakLogic.getAction logic =
         Ok (mkLeakPreventionAction CLOSE_VALVE LEAK_DETECTED_BY_PROBE
               (ProbeLeakDetectionCriterion.probeId p))).
Proof.
  intros pre post p s dt Hpre Hs.
  eexists. split.
  - unfold LeakLogic.update. simpl. rewrite update_criteria_map. reflexivity.
  - unfold LeakLogic.getAction. simpl. rewrite map_app. simpl.
    induction Hpre as [|c pre [tc ->] _ IH]; simpl.
    + rewrite getAction_spec, update_leakDetected, Hs. now right.
    + destruct (TimeBased_getAction_cases (TimeBasedFlowRateCriterion.update tc s dt)) as [E|E];
        rewrite E; [now left|exact IH].
Qed.

(** ** The record parsers *)

(** X7: [TimeBasedFlowRateCriterion::deserialize] reads the second and third
    comma-terminated fields as the threshold code and the duration; the
    first field (the type tag) is not checked and everything after the
    third comma is ignored. *)
Theorem X7_flow_parser_fields :
  forall (tag rest : string) k d,
    excludes "," tag = true ->
    -2^31 <= k < 2^31 -> -2^31 <= d < 2^31 ->
    TimeBasedFlowRateCriterion.deserialize (tag ++ "," ++ Of k ++ "," ++ Of d ++ "," ++ rest) =
    Some (TimeBasedFlowRateCriterion.new (fdiv (float_of_int k) 100) d).
Proof.
  intros tag rest k d Htag _ _.
  unfold TimeBasedFlowRateCriterion.deserialize.
  rewrite tb_loop_skip by exact Htag. cbn [String.append].
  rewrite tb_loop_cons. simpl Ascii.eqb. cbv iota.
  rewrite tb_loop_skip by apply Of_excludes. cbn [String.append].
  rewrite tb_loop_cons. simpl Ascii.eqb. cbv iota.
  rewrite tb_loop_skip by apply Of_excludes. cbn [String.append].
  rewrite tb_loop_cons. simpl Ascii.eqb. cbv iota.
  now rewrite !ToInteger_Of.
Qed.

(** X8: [ProbeLeakDetectionCriterion::deserialize] reads the second
    comma-terminated field as the probe id, reduced modulo 256 to
    [uint8_t]; the type tag is not checked and the rest is ignored. *)
Theorem X8_probe_parser_fields :
  forall (tag rest : string) p,
    excludes "," tag = true ->
    -2^31 <= p < 2^31 ->
    ProbeLeakDetectionCriterion.deserialize (tag ++ "," ++ Of p ++ "," ++ rest) =
    Some (ProbeLeakDetectionCriterion.new (p mod 256)).
Proof.
  intros tag rest p Htag _.
  unfold ProbeLeakDetectionCriterion.deserialize.
  rewrite probe_loop_skip by exact Htag. cbn [String.append].
  rewrite probe_loop_cons. simpl Ascii.eqb. cbv iota.
  rewrite probe_loop_skip by apply Of_excludes. cbn [String.append].
  rewrite probe_loop_cons. simpl Ascii.eqb. cbv iota.
  now rewrite !ToInteger_Of.
Qed.

(** X9: a record with fewer than three commas (flow rate) or fewer than two
    commas (probe) gives [nullptr]. *)
Theorem X9_parsers_too_few_fields :
  forall a b c : string,
    excludes "," a = true -> excludes "," b = true -> excludes "," c = true ->
    TimeBasedFlowRateCriterion.deserialize a = None /\
    TimeBasedFlowRateCriterion.deserialize (a ++ "," ++ b) = None /\
    TimeBasedFlowRateCriterion.deserialize (a ++ "," ++ b ++ "," ++ c) = None /\
    ProbeLeakDetectionCriterion.deserialize a = None /\
    ProbeLeakDetectionCriterion.deserialize (a ++ "," ++ b) = None.
Proof.
  intros a b c Ha Hb Hc.
  unfold TimeBasedFlowRateCriterion.deserialize, ProbeLeakDetectionCriterion.deserialize.
  repeat split.
  - now apply tb_loop_none.
  - rewrite tb_loop_skip by exact Ha. cbn [String.append].
    rewrite tb_loop_cons. simpl Ascii.eqb. cbv iota. now apply tb_loop_none.
  - rewrite tb_loop_skip by exact Ha. cbn [String.append].
    rewrite tb_loop_cons. simpl Ascii.eqb. cbv iota.
    rewrite tb_loop_skip by exact Hb. cbn [String.append].
    rewrite tb_loop_cons. simpl Ascii.eqb. cbv iota. now apply tb_loop_none.
  - now apply probe_loop_none.
  - rewrite probe_loop_skip by exact Ha. cbn [String.append].
    rewrite probe_loop_cons. simpl Ascii.eqb. cbv iota. now apply probe_loop_none.
Qed.

(** ** [LeakLogic::loadFromString] *)

(** X10: loading a string is loading its '|'-terminated prefix, then the
    remainder into the result: the load is chunk-by-chunk, with no state
    carried across a '|'. *)
Theorem X10_load_splits_at_bar :
  forall (logic : LeakLogic.t) (s1 s2 : string),
    LeakLogic.loadFromString logic (s1 ++ "|" ++ s2) =
    LeakLogic.loadFromString (LeakLogic.loadFromString logic (s1 ++ "|")) s2.
Proof. intros logic s1 s2. apply load_loop_split. Qed.

(** X11: a chunk whose first character is neither 'T' nor 'P' is skipped:
    it changes nothing. *)
Theorem X11_unknown_tag_skipped :
  forall (logic : LeakLogic.t) (c : ascii) (chunk s : string),
    c <> "T"%char -> c <> "P"%char -> excludes "|" (String c chunk) = true ->
    LeakLogic.loadFromString logic (String c chunk ++ "|" ++ s) =
    LeakLogic.loadFromString logic s.
Proof.
  intros logic c chunk s HT HP Hx. unfold LeakLogic.loadFromString.
  rewrite load_loop_skip by exact Hx. cbn [String.append].
  rewrite load_loop_cons. simpl Ascii.eqb. cbv iota.
  now rewrite load_chunk_other.
Qed.

(** ** [LeakLogic::removeCriterion] and [LeakLogic::clearCriteria] *)

(** X12: removing the criterion at a valid index drops exactly its record
    from the serialization, keeping the others in order, and frees a slot in
    a full logic; an index out of bounds fails and changes nothing; after
    [clearCriteria] there is no action, the serialization is empty and a
    criterion can be added. *)
Theorem X12_remove_and_clear :
  (forall (cs : list LeakDetectionCriterion) i,
     0 <= i < 256 -> (Z.to_nat i < List.length cs)%nat ->
     exists logic,
       LeakLogic.removeCriterion (LeakLogic.mk (map Some cs)) i = (true, logic) /\
       LeakLogic.serialize logic =
         Ok (document (firstn (Z.to_nat i) cs ++ skipn (S (Z.to_nat i)) cs)) /\
       (List.length cs = 10%nat -> forall c,
          LeakLogic.addCriterion logic c = (true, LeakLogic.mk (LeakLogic.criteria logic ++ [c])))) /\
  (forall (logic : LeakLogic.t) i,
     0 <= i < 256 -> (List.length (LeakLogic.criteria logic) <= Z.to_nat i)%nat ->
     LeakLogic.removeCriterion logic i = (false, logic)) /\
  (forall logic : LeakLogic.t,
     LeakLogic.getAction (LeakLogic.clearCriteria logic) = Ok no_action /\
     LeakLogic.serialize (LeakLogic.clearCriteria logic) = Ok EmptyString /\
     forall c, LeakLogic.addCriterion (LeakLogic.clearCriteria logic) c = (true, LeakLogic.mk [c])).
Proof.
  split; [|split].
  - intros cs i _ Hi. set (n := Z.to_nat i) in *.
    exists (LeakLogic.mk (map Some (firstn n cs ++ skipn (S n) cs))).
    unfold LeakLogic.removeCriterion, RemoveIndex. simpl LeakLogic.criteria.
    change (Z.to_nat i) with n. rewrite length_map.
    apply Nat.ltb_lt in Hi as Hb. rewrite Hb.
    rewrite firstn_map, skipn_map, <- map_app.
    split; [reflexivity|]. split; [apply serialize_document|].
    intros Hlen c. unfold LeakLogic.addCriterion, Append. cbn [LeakLogic.criteria].
    apply Nat.ltb_lt in Hb.
    assert (Hl : List.length (map Some (firstn n cs ++ skipn (S n) cs)) = 9%nat).
    { rewrite length_map, length_app, length_firstn, length_skipn. lia. }
    rewrite Hl. reflexivity.
  - intros [cs] i _ Hi. unfold LeakLogic.removeCriterion, RemoveIndex. simpl in *.
    destruct (Nat.ltb_spec (Z.to_nat i) (List.length cs)); [lia|reflexivity].
  - intros logic. repeat split.
Qed.

(** * Instances of the further properties *)

Lemma X1_flow_firing_persists_witness :
  TimeBasedFlowRateCriterion.getAction (TimeBasedFlowRateCriterion.mk 2 60 60 true) <> None /\
  TimeBasedFlowRateCriterion.getAction
    (TimeBasedFlowRateCriterion.update (TimeBasedFlowRateCriterion.mk 2 60 60 true) (mkSensorState 3 []) 10) =
  Some close_for_flow.
Proof.
  assert (H1 : TimeBasedFlowRateCriterion.getAction (TimeBasedFlowRateCriterion.mk 2 60 60 true) <> None)
    by discriminate.
  assert (H2 : (TimeBasedFlowRateCriterion.rateThreshold (TimeBasedFlowRateCriterion.mk 2 60 60 true)
                <= flowRate (mkSensorState 3 []))%Q) by (simpl; lra).
  assert (H3 : 0 <= 10) by lia.
  split; [exact H1 | exact (X1_flow_firing_persists _ _ _ H1 H2 H3)].
Defined.

Lemma X2_flow_accumulator_since_reset_witness :
  run_TimeBased (TimeBasedFlowRateCriterion.new 2 60)
    ([(mkSensorState 3 [], 30)] ++ (mkSensorState 0 [], 5) ::
     [(mkSensorState 3 [], 20); (mkSensorState 4 [], 30)]) =
  TimeBasedFlowRateCriterion.mk 2 60 50 true.
Proof.
  assert (H1 : (flowRate (fst (mkSensorState 0 [], 5%Z)) <
                TimeBasedFlowRateCriterion.rateThreshold (TimeBasedFlowRateCriterion.new 2 60))%Q)
    by (simpl; lra).
  assert (H2 : Forall (fun tick => (TimeBasedFlowRateCriterion.rateThreshold (TimeBasedFlowRateCriterion.new 2 60)
                                    <= flowRate (fst tick))%Q)
                 [(mkSensorState 3 [], 20); (mkSensorState 4 [], 30)])
    by (repeat constructor; simpl; lra).
  exact (X2_flow_accumulator_since_reset _ [(mkSensorState 3 [], 30)] _ _ H1 H2).
Defined.

Lemma X4_null_entry_behaviour_witness :
  LeakLogic.getAction
    (LeakLogic.mk (map Some [Probe (ProbeLeakDetectionCriterion.mk 3 false)] ++ None :: [])) = NullDeref /\
  LeakLogic.getAction
    (LeakLogic.mk (map Some [Probe (ProbeLeakDetectionCriterion.mk 3 true)] ++ None :: [])) =
  LeakLogic.getAction (LeakLogic.mk (map Some [Probe (ProbeLeakDetectionCriterion.mk 3 true)])).
Proof.
  assert (H1 : Forall (fun c => criterion_getAction c = None)
                 [Probe (ProbeLeakDetectionCriterion.mk 3 false)]) by (repeat constructor).
  assert (H2 : Exists (fun c => criterion_getAction c <> None)
                 [Probe (ProbeLeakDetectionCriterion.mk 3 true)]) by (constructor; discriminate).
  split.
  - exact (proj1 (proj2 (proj2 (X4_null_entry_behaviour _ [] (mkSensorState 0 []) 0))) H1).
  - exact (proj2 (proj2 (proj2 (X4_null_entry_behaviour _ [] (mkSensorState 0 []) 0))) H2).
Defined.

Lemma X6_first_probe_id_reported_witness :
  exists logic,
    LeakLogic.update
      (LeakLogic.mk (map Some ([TimeBased (TimeBasedFlowRateCriterion.new 2 60)] ++
                              Probe (ProbeLeakDetectionCriterion.new 7) :: [])))
      (mkSensorState 0 [false; true]) 10 = Ok logic /\
    (LeakLogic.getAction logic = Ok close_for_flow \/
     LeakLogic.getAction logic = Ok (mkLeakPreventionAction CLOSE_VALVE LEAK_DETECTED_BY_PROBE 7)).
Proof.
  assert (H1 : Forall (fun c => exists tc, c = TimeBased tc) [TimeBased (TimeBasedFlowRateCriterion.new 2 60)])
    by (repeat constructor; eexists; reflexivity).
  assert (H2 : existsb (fun b => b) (probeStates (mkSensorState 0 [false; true])) = true) by reflexivity.
  exact (X6_first_probe_id_reported _ [] (ProbeLeakDetectionCriterion.new 7) _ 10 H1 H2).
Defined.

Lemma X7_flow_parser_fields_witness :
  TimeBasedFlowRateCriterion.deserialize ("X" ++ "," ++ Of 167 ++ "," ++ Of 1234 ++ "," ++ "9,")%string =
  Some (TimeBasedFlowRateCriterion.new (fdiv (float_of_int 167) 100) 1234).
Proof.
  assert (H1 : excludes "," "X" = true) by reflexivity.
  assert (H2 : -2^31 <= 167 < 2^31) by lia.
  assert (H3 : -2^31 <= 1234 < 2^31) by lia.
  exact (X7_flow_parser_fields "X" "9," 167 1234 H1 H2 H3).
Defined.

Lemma X8_probe_parser_fields_witness :
  ProbeLeakDetectionCriterion.deserialize ("P" ++ "," ++ Of 300 ++ "," ++ "")%string =
  Some (ProbeLeakDetectionCriterion.new 44).
Proof.
  assert (H1 : excludes "," "P" = true) by reflexivity.
  assert (H2 : -2^31 <= 300 < 2^31) by lia.
  exact (X8_probe_parser_fields "P" "" 300 H1 H2).
Defined.

Lemma X9_parsers_too_few_fields_witness :
  TimeBasedFlowRateCriterion.deserialize ("T" ++ "," ++ "200" ++ "," ++ "60")%string = None.
Proof.
  assert (Ha : excludes "," "T" = true) by reflexivity.
  assert (Hb : excludes "," "200" = true) by reflexivity.
  assert (Hc : excludes "," "60" = true) by reflexivity.
  exact (proj1 (proj2 (proj2 (X9_parsers_too_few_fields _ _ _ Ha Hb Hc)))).
Defined.

Lemma X11_unknown_tag_skipped_witness :
  LeakLogic.loadFromString LeakLogic.empty (String "X" ",1," ++ "|" ++ "P,1,|")%string =
  LeakLogic.loadFromString LeakLogic.empty "P,1,|".
Proof.
  assert (H1 : "X"%char <> "T"%char) by discriminate.
  assert (H2 : "X"%char <> "P"%char) by discriminate.
  assert (H3 : excludes "|" (String "X" ",1,") = true) by reflexivity.
  exact (X11_unknown_tag_skipped _ _ _ _ H1 H2 H3).
Defined.

Lemma X12_remove_and_clear_witness :
  (exists logic,
     LeakLogic.removeCriterion (LeakLogic.mk (map Some (repeat (Probe (ProbeLeakDetectionCriterion.new 1)) 10))) 3 =
       (true, logic) /\
     LeakLogic.serialize logic =
       Ok (document (firstn 3 (repeat (Probe (ProbeLeakDetectionCriterion.new 1)) 10) ++
                     skipn 4 (repeat (Probe (ProbeLeakDetectionCriterion.new 1)) 10))) /\
     LeakLogic.addCriterion logic None = (true, LeakLogic.mk (LeakLogic.criteria logic ++ [None]))) /\
  LeakLogic.removeCriterion LeakLogic.empty 0 = (false, LeakLogic.empty).
Proof.
  assert (H1 : 0 <= 3 < 256) by lia.
  assert (H2 : (Z.to_nat 3 < List.length (repeat (Probe (ProbeLeakDetectionCriterion.new 1)) 10))%nat)
    by (simpl; lia).
  assert (H3 : List.length (repeat (Probe (ProbeLeakDetectionCriterion.new 1)) 10) = 10%nat) by reflexivity.
  assert (H4 : 0 <= 0 < 256) by lia.
  assert (H5 : (List.length (LeakLogic.criteria LeakLogic.empty) <= Z.to_nat 0)%nat) by (simpl; lia).
  split.
  - destruct (proj1 X12_remove_and_clear _ 3 H1 H2) as [logic [Hr [Hs Ha]]].
    exists logic. split; [exact Hr|]. split; [exact Hs|]. exact (Ha H3 None).
  - exact (proj1 (proj2 X12_remove_and_clear) LeakLogic.empty 0 H4 H5).
Defined.
